(** * JeAlloc: the instrumented allocation layer over jemalloc

    Shallow embedding of [native/cocos/renderer/core/memory/JeAlloc.cc]
    (namespace [cc], class [JeAllocImpl]) and the properties of its
    overflow guard, tracker bookkeeping, statistics dump and trim.

    Memory is block structured: the backing allocator owns a finite map from
    the base address of every live block to the bytes of its usable region.
    An access that leaves the block it is addressed from (or that goes
    through a pointer owning no block, such as the null pointer) is undefined
    behaviour in C and is modelled as the fault [WildAccess]; a failed
    [CCASSERT] is the fault [AssertFailed]. *)

From Stdlib Require Import ZArith Lia Strings.Byte Strings.Ascii.
From stdpp Require Import gmap list strings.

Open Scope Z_scope.

(** ** Machine integers *)

(** [size_t] is 64 bits wide, [int] 32 bits, two's complement. *)
Definition SIZE_MOD : Z := 2 ^ 64.
Definition to_size_t (z : Z) : Z := z mod SIZE_MOD.
Definition to_int (z : Z) : Z := (z + 2 ^ 31) mod 2 ^ 32 - 2 ^ 31.

Definition NULL : Z := 0.

(** ** Bytes *)

Definition byte_of_Z (z : Z) : byte :=
  match Byte.of_N (Z.to_N (z mod 256)) with
  | Some b => b
  | None => x00
  end.

Definition Z_of_byte (b : byte) : Z := Z.of_N (Byte.to_N b).

#[global] Instance byte_eq_decision : EqDecision byte := Byte.byte_eq_dec.

(** [memcpy(p, &v, n)] and [memcpy(&v, p, n)] for an unsigned [v]: the
    object representation, least significant byte first. *)
Fixpoint encode_le (n : nat) (v : Z) : list byte :=
  match n with
  | O => []
  | S n' => byte_of_Z v :: encode_le n' (v / 256)
  end.

Fixpoint decode_le (bs : list byte) : Z :=
  match bs with
  | [] => 0
  | b :: bs' => Z_of_byte b + 256 * decode_le bs'
  end.

(** ** Build configuration *)

(** The two preprocessor symbols the file tests.  [CC_MEMORY_TRACKER] selects
    the guard functions, the tag width and the instrumented bodies of
    [AllocBytes], [ReallocBytes] and [DeallocBytes]; [AllocBytesAligned]
    tests [COCOS_MEMORY_TRACKER]. *)
Record Config := {
  CC_MEMORY_TRACKER : bool;
  COCOS_MEMORY_TRACKER : bool
}.

Definition MEM_CHECKTAG_SIZE (cfg : Config) : Z :=
  if CC_MEMORY_TRACKER cfg then 4 else 0.

Definition MEM_CHECKTAG : Z := 0x20170719.

(** ** Program state *)

(** One entry of the tracker's ledger: what [RecordAlloc] is given. *)
Record AllocRecord := {
  rec_size : Z;
  rec_file : string;
  rec_line : Z;
  rec_func : string
}.

Record State := {
  heap : gmap Z (list byte);      (* live blocks of the backing allocator *)
  ledger : gmap Z AllocRecord;    (* MemTracker::Instance() *)
  mallctl_log : list string;      (* control commands issued so far *)
  stdout : list string            (* lines printed *)
}.

Definition set_heap (h : gmap Z (list byte)) (s : State) : State :=
  {| heap := h; ledger := ledger s; mallctl_log := mallctl_log s; stdout := stdout s |}.

Definition set_ledger (l : gmap Z AllocRecord) (s : State) : State :=
  {| heap := heap s; ledger := l; mallctl_log := mallctl_log s; stdout := stdout s |}.

Definition init_state : State :=
  {| heap := ∅; ledger := ∅; mallctl_log := []; stdout := [] |}.

(** ** Outcomes: a state and fault monad *)

Inductive Fault := AssertFailed | WildAccess.

Inductive Outcome (A : Type) :=
  | Ok (a : A) (s : State)
  | Crash (f : Fault).
Arguments Ok {A} a s.
Arguments Crash {A} f.

Definition M (A : Type) : Type := State → Outcome A.

Definition ret {A} (a : A) : M A := λ s, Ok a s.

Definition bind {A B} (m : M A) (k : A → M B) : M B :=
  λ s, match m s with
       | Ok a s' => k a s'
       | Crash f => Crash f
       end.

Definition crash {A} (f : Fault) : M A := λ _, Crash f.

Declare Scope je_scope.
Delimit Scope je_scope with je.
Notation "'let*' x := m 'in' k" := (bind m (λ x, k))
  (at level 10, x name, m at level 100, k at level 200) : je_scope.
Notation "m ;;; k" := (bind m (λ _, k))
  (at level 100, k at level 200, right associativity) : je_scope.
Open Scope je_scope.

(** ** Raw memory accesses *)

Definition splice (d : list byte) (off : nat) (bs : list byte) : list byte :=
  take off d ++ bs ++ drop (off + length bs) d.

(** Write [bs] at [off] bytes past the block base [p]. *)
Definition store (p off : Z) (bs : list byte) : M unit := λ s,
  match heap s !! p with
  | Some d =>
      if decide (0 ≤ off ∧ off + Z.of_nat (length bs) ≤ Z.of_nat (length d))
      then Ok tt (set_heap (<[p := splice d (Z.to_nat off) bs]> (heap s)) s)
      else Crash WildAccess
  | None => Crash WildAccess
  end.

(** Read [n] bytes at [off] bytes past the block base [p]. *)
Definition load (p off n : Z) : M (list byte) := λ s,
  match heap s !! p with
  | Some d =>
      if decide (0 ≤ off ∧ 0 ≤ n ∧ off + n ≤ Z.of_nat (length d))
      then Ok (take (Z.to_nat n) (drop (Z.to_nat off) d)) s
      else Crash WildAccess
  | None => Crash WildAccess
  end.

(** [memcpy(dst, src, n)] between the starts of two blocks. *)
Definition memcpy (dst src n : Z) : M unit :=
  let* bs := load src 0 n in store dst 0 bs.

(** ** The backing allocator *)

(** Modelled from the spec: the backing allocator (jemalloc, declared in
    jemalloc/jemalloc.h) is an opaque capability.  Its placement decisions
    are an oracle: given the live blocks, an optional alignment and a size it
    either refuses or names a base address together with the (uninitialised)
    bytes of the usable region found there.  [je_narenas] is what the control
    query "arenas.narenas" stores, if it succeeds; [je_ctl_status] is the
    status a control command returns. *)
Class Backing := {
  je_place : gmap Z (list byte) → option Z → Z → option (Z * list byte);
  je_narenas : option Z;
  je_ctl_status : string → Z
}.

(** What every conforming backing allocator guarantees of a successful
    placement: a non-null address that owns no live block, and a usable
    region at least as large as requested. *)
Definition BackingOk (B : Backing) : Prop :=
  ∀ h al sz p d,
    je_place h al sz = Some (p, d) →
    p ≠ NULL ∧ h !! p = None ∧ sz ≤ Z.of_nat (length d).

Section Facade.
Context {B : Backing}.

Definition je_alloc_at (al : option Z) (size : Z) : M Z := λ s,
  match je_place (heap s) al size with
  | Some (p, d) => Ok p (set_heap (<[p := d]> (heap s)) s)
  | None => Ok NULL s
  end.

Definition je_malloc (size : Z) : M Z := je_alloc_at None size.

Definition je_aligned_alloc (align size : Z) : M Z := je_alloc_at (Some align) size.

(** [je_malloc_usable_size(NULL)] is 0. *)
Definition je_malloc_usable_size (ptr : Z) : M Z := λ s,
  if decide (ptr = NULL) then Ok 0 s
  else match heap s !! ptr with
       | Some d => Ok (Z.of_nat (length d)) s
       | None => Crash WildAccess
       end.

(** [je_free(NULL)] does nothing. *)
Definition je_free (ptr : Z) : M unit := λ s,
  if decide (ptr = NULL) then Ok tt s
  else match heap s !! ptr with
       | Some _ => Ok tt (set_heap (delete ptr (heap s)) s)
       | None => Crash WildAccess
       end.

(** The native resize: a null [ptr] allocates; otherwise the block is moved
    to wherever the oracle places the new size (possibly the same address),
    keeping the common prefix, or left alone with a null result when the
    oracle refuses. *)
Definition je_realloc (ptr size : Z) : M Z := λ s,
  if decide (ptr = NULL) then je_malloc size s
  else match heap s !! ptr with
       | Some old =>
           match je_place (delete ptr (heap s)) None size with
           | Some (p, d) =>
               Ok p (set_heap (<[p := splice d 0 (take (length d) old)]>
                                 (delete ptr (heap s))) s)
           | None => Ok NULL s
           end
       | None => Crash WildAccess
       end.

(** ** The allocation tracker *)

(** Modelled from the spec: MemTracker (MemTracker.h) is a ledger keyed by
    allocation address; [RecordAlloc] inserts the record, [RecordFree]
    removes it. *)
Definition RecordAlloc (ptr size : Z) (file : string) (line : Z) (func : string) : M unit :=
  λ s, Ok tt (set_ledger (<[ptr := {| rec_size := size; rec_file := file;
                                       rec_line := line; rec_func := func |}]>
                            (ledger s)) s).

Definition RecordFree (ptr : Z) : M unit :=
  λ s, Ok tt (set_ledger (delete ptr (ledger s)) s).

(** ** The overflow guard *)

(** The guard functions exist only under [CC_MEMORY_TRACKER], where the tag
    is 4 bytes wide. *)
Definition CheckOverflowAlloc (ptr : Z) : M unit :=
  let* size := je_malloc_usable_size ptr in
  store ptr (size - 4) (encode_le 4 MEM_CHECKTAG).

Definition CCASSERT (c : bool) : M unit :=
  if c then ret tt else crash AssertFailed.

Definition CheckOverflowFree (ptr : Z) : M unit :=
  let* size := je_malloc_usable_size ptr in
  let* tag := load ptr (size - 4) 4 in
  CCASSERT (bool_decide (decode_le tag = MEM_CHECKTAG)).

(** ** JeAllocImpl *)

Section WithConfig.
Variable cfg : Config.

Definition AllocBytes (count : Z) (file : string) (line : Z) (func : string) : M Z :=
  let* ptr := je_malloc (to_size_t (count + MEM_CHECKTAG_SIZE cfg)) in
  if CC_MEMORY_TRACKER cfg then
    CheckOverflowAlloc ptr ;;;
    RecordAlloc ptr count file line func ;;;
    ret ptr
  else ret ptr.

Definition ReallocBytes (ptr count : Z) (file : string) (line : Z) (func : string) : M Z :=
  if CC_MEMORY_TRACKER cfg then
    if decide (ptr ≠ NULL) then
      if decide (count = 0) then
        CheckOverflowFree ptr ;;;
        RecordFree ptr ;;;
        je_free ptr ;;;
        ret NULL
      else
        let* usable := je_malloc_usable_size ptr in
        let oldsz := to_size_t (usable - MEM_CHECKTAG_SIZE cfg) in
        let oldsz := if decide (oldsz > count) then count else oldsz in
        let* nptr := je_malloc (to_size_t (count + MEM_CHECKTAG_SIZE cfg)) in
        memcpy nptr ptr oldsz ;;;
        CheckOverflowAlloc nptr ;;;
        RecordAlloc nptr count file line func ;;;
        CheckOverflowFree ptr ;;;
        RecordFree ptr ;;;
        je_free ptr ;;;
        ret nptr
    else
      if decide (count ≠ 0) then
        let* ptr := je_malloc (to_size_t (count + MEM_CHECKTAG_SIZE cfg)) in
        CheckOverflowAlloc ptr ;;;
        RecordAlloc ptr count file line func ;;;
        ret ptr
      else ret NULL
  else je_realloc ptr count.

Definition AllocBytesAligned (align count : Z) (file : string) (line : Z) (func : string) : M Z :=
  let* ptr := je_aligned_alloc align (to_size_t (count + MEM_CHECKTAG_SIZE cfg)) in
  if COCOS_MEMORY_TRACKER cfg then
    CheckOverflowAlloc ptr ;;;
    RecordAlloc ptr count file line func ;;;
    ret ptr
  else ret ptr.

Definition DeallocBytes (ptr : Z) : M unit :=
  if decide (ptr = NULL) then ret tt
  else if CC_MEMORY_TRACKER cfg then
    CheckOverflowFree ptr ;;;
    RecordFree ptr ;;;
    je_free ptr
  else je_free ptr.

End WithConfig.
End Facade.

(** ** Statistics dump *)

(** A C string is modelled by its characters; the array behind it holds one
    more byte, the terminator. *)
Fixpoint strlen (msg : list byte) : Z :=
  match msg with
  | [] => 0
  | b :: msg' => if decide (b = x00) then 0 else 1 + strlen msg'
  end.

(** [buf] is the cursor, as an offset into the caller's array. *)
Record JeDumpData := {
  jd_buf : Z;
  jd_size : Z
}.

(** The callback works on the caller's array [dest]; [None] is an access
    outside [dest] or outside the array behind [msg]. *)
Definition JeStatsPrint (jd : JeDumpData) (msg : list byte) (dest : list byte)
  : option (JeDumpData * list byte) :=
  if decide (jd_size jd = 0) then Some (jd, dest)
  else
    let len := to_int (strlen msg) in
    let len := if decide (len > jd_size jd) then jd_size jd else len in
    let n := to_size_t len in
    if decide (n ≤ Z.of_nat (length msg) + 1 ∧
               0 ≤ jd_buf jd ∧ jd_buf jd + n ≤ Z.of_nat (length dest)) then
      let dest1 := splice dest (Z.to_nat (jd_buf jd))
                     (take (Z.to_nat n) (msg ++ [x00])) in
      if decide (0 ≤ jd_buf jd + len < Z.of_nat (length dest1)) then
        Some ({| jd_buf := jd_buf jd + len; jd_size := to_int (jd_size jd - len) |},
              <[Z.to_nat (jd_buf jd + len) := x00]> dest1)
      else None
    else None.

(** [je_malloc_stats_print(cb, param, opts)] calls [cb] once per fragment of
    the report. *)
Fixpoint je_malloc_stats_print (frags : list (list byte)) (jd : JeDumpData)
    (dest : list byte) : option (JeDumpData * list byte) :=
  match frags with
  | [] => Some (jd, dest)
  | msg :: frags' =>
      match JeStatsPrint jd msg dest with
      | Some (jd', dest') => je_malloc_stats_print frags' jd' dest'
      | None => None
      end
  end.

Definition DumpStats (frags : list (list byte)) (dest : list byte) (bufsize : Z)
  : option (list byte) :=
  let jd := {| jd_buf := 0; jd_size := to_int (bufsize - 1) |} in
  snd <$> je_malloc_stats_print frags jd dest.

(** ** Trim *)

Definition digit_char (d : Z) : ascii := ascii_of_nat (48 + Z.to_nat d).

(** The decimal digits of a non-negative number of at most [fuel] digits. *)
Fixpoint fmt_u (fuel : nat) (n : Z) : string :=
  match fuel with
  | O => ""
  | S fuel' =>
      if decide (n < 10) then String (digit_char n) ""
      else fmt_u fuel' (n / 10) +:+ String (digit_char (n mod 10)) ""
  end.

(** The conversion [%d] of an [int]; its magnitude has at most 10 digits. *)
Definition fmt_d (n : Z) : string :=
  if decide (n < 0) then "-" +:+ fmt_u 10 (- n) else fmt_u 10 n.

Definition strlen_s (s : string) : Z := Z.of_nat (String.length s).

(** [sprintf] into a local array of [cap] bytes: the text and its
    terminator must fit. *)
Definition sprintf (cap : Z) (text : string) : M string :=
  if decide (strlen_s text + 1 ≤ cap) then ret text else crash WildAccess.

Definition printf (text : string) : M unit := λ s,
  Ok tt {| heap := heap s; ledger := ledger s; mallctl_log := mallctl_log s;
           stdout := stdout s ++ [text] |}.

Definition log_ctl (name : string) (s : State) : State :=
  {| heap := heap s; ledger := ledger s; mallctl_log := mallctl_log s ++ [name];
     stdout := stdout s |}.

Section Trim.
Context {B : Backing}.

(** [je_mallctl(name, &v, &sz, nullptr, 0)] with an [int] [v]: a read.  On
    failure [v] keeps its value. *)
Definition je_mallctl_read (name : string) (v : Z) : M (Z * Z) := λ s,
  Ok (je_ctl_status name,
      match je_narenas with Some n => to_int n | None => v end) (log_ctl name s).

(** [je_mallctl(name, NULL, NULL, NULL, 0)]: a command. *)
Definition je_mallctl (name : string) : M Z := λ s,
  Ok (je_ctl_status name) (log_ctl name s).

Definition TrimAlloc : M unit :=
  let narenas := 0 in
  let* r := je_mallctl_read "arenas.narenas" narenas in
  let narenas := snd r in
  let* buf := sprintf 24 ("arena." +:+ fmt_d narenas +:+ ".purge") in
  printf ("jemalloc trim: " +:+ buf +:+ String (ascii_of_nat 10) "") ;;;
  let* _ := je_mallctl buf in
  ret tt.

End Trim.

(** ** Vocabulary of the statements *)

(** A run's fault, if any, and the state it ends in, if it ends normally. *)
Definition fault_of {A} (o : Outcome A) : option Fault :=
  match o with
  | Ok _ _ => None
  | Crash f => Some f
  end.

Definition final_state {A} (o : Outcome A) : option State :=
  match o with
  | Ok _ s => Some s
  | Crash _ => None
  end.

(** The object representation of the tag, and a usable region after
    [CheckOverflowAlloc]. *)
Definition tag_bytes : list byte := encode_le 4 MEM_CHECKTAG.

Definition stamped (d : list byte) : list byte :=
  splice d (length d - 4)%nat tag_bytes.

(** The last four bytes of a usable region read back as the tag. *)
Definition canary_ok (d : list byte) : bool :=
  bool_decide (decode_le (take 4 (drop (length d - 4)%nat d)) = MEM_CHECKTAG).

(** The state after a tracked allocation of [count] bytes placed at [p] in
    the usable region [d]. *)
Definition allocated (p : Z) (d : list byte) (count : Z)
    (file : string) (line : Z) (func : string) (s : State) : State :=
  set_ledger (<[p := {| rec_size := count; rec_file := file;
                        rec_line := line; rec_func := func |}]> (ledger s))
    (set_heap (<[p := stamped d]> (heap s)) s).

(** The state after [RecordFree(ptr); je_free(ptr)]. *)
Definition released (ptr : Z) (s : State) : State :=
  set_heap (delete ptr (heap s)) (set_ledger (delete ptr (ledger s)) s).

(** The application writes [bs] starting at the pointer it was given. *)
Definition user_write (ptr : Z) (bs : list byte) : M unit := store ptr 0 bs.

(** The characters of a C string: what precedes its first zero byte. *)
Fixpoint cstr (msg : list byte) : list byte :=
  match msg with
  | [] => []
  | b :: msg' => if decide (b = x00) then [] else b :: cstr msg'
  end.

(** The report a buffer of [bufsize] bytes has room for. *)
Definition report_text (frags : list (list byte)) (bufsize : Z) : list byte :=
  take (Z.to_nat (bufsize - 1)) (concat (cstr <$> frags)).

(** Reading a decimal numeral back, to state that [fmt_u] prints its
    argument. *)
Definition digit_val (c : ascii) : Z := Z.of_nat (nat_of_ascii c) - 48.

Fixpoint parse_u (acc : Z) (s : string) : Z :=
  match s with
  | EmptyString => acc
  | String c s' => parse_u (10 * acc + digit_val c) s'
  end.

(** ** Sequences of facade calls *)

Inductive Op :=
  | OpAlloc (count : Z)
  | OpAllocAligned (align count : Z)
  | OpRealloc (ptr count : Z)
  | OpDealloc (ptr : Z).

Definition is_aligned_op (op : Op) : bool :=
  match op with
  | OpAllocAligned _ _ => true
  | _ => false
  end.

Section Runs.
Context {B : Backing}.
Variable cfg : Config.

(** One call; the result is the pointer returned (null for a release). *)
Definition exec (op : Op) : M Z :=
  match op with
  | OpAlloc count => AllocBytes cfg count "" 0 ""
  | OpAllocAligned align count => AllocBytesAligned cfg align count "" 0 ""
  | OpRealloc ptr count => ReallocBytes cfg ptr count "" 0 ""
  | OpDealloc ptr => DeallocBytes cfg ptr ;;; ret NULL
  end.

(** The pointers the spec calls live after a call that returned [r], each
    with its requested size: an allocation that returns non-null adds its
    result; a release, or a reallocation to zero, removes its argument; a
    reallocation that returns non-null replaces its argument by its result. *)
Definition live_after (op : Op) (r : Z) (live : gmap Z Z) : gmap Z Z :=
  match op with
  | OpAlloc count | OpAllocAligned _ count =>
      if decide (r = NULL) then live else <[r := count]> live
  | OpRealloc ptr count =>
      if decide (ptr = NULL) then
        if decide (count = 0 ∨ r = NULL) then live else <[r := count]> live
      else if decide (count = 0) then delete ptr live
      else if decide (r = NULL) then live
      else <[r := count]> (delete ptr live)
  | OpDealloc ptr => if decide (ptr = NULL) then live else delete ptr live
  end.

Fixpoint run (ops : list Op) (live : gmap Z Z) : M (gmap Z Z) :=
  match ops with
  | [] => ret live
  | op :: ops' => let* r := exec op in run ops' (live_after op r live)
  end.

End Runs.

(** The ledger holds exactly the live pointers with their requested sizes,
    and they are exactly the blocks of the backing allocator. *)
Definition ledger_agrees (s : State) (live : gmap Z Z) : Prop :=
  rec_size <$> ledger s = live ∧ dom (heap s) = dom live.

(** ** A reference backing allocator *)

(** Used to run the embedding on concrete inputs.  Requests are rounded up
    as jemalloc rounds small requests (to 8 bytes, then to multiples of the
    16-byte quantum: 104 becomes 112); fresh blocks are placed above every
    live one and filled with jemalloc's junk byte 0xa5; requests above the
    largest size class, and alignments that are not powers of two, are
    refused.  The source sets [je_malloc_conf = "narenas:4"]. *)
Definition je_size_class (n : Z) : Z :=
  if decide (n ≤ 8) then 8 else (n + 15) / 16 * 16.

Definition JE_LARGE_MAX : Z := 0x7000000000000000.

Definition heap_top (h : gmap Z (list byte)) : Z :=
  map_fold (λ k d acc, Z.max acc (k + Z.of_nat (length d))) 0 h.

Definition is_pow2 (a : Z) : bool :=
  bool_decide (0 < a) && bool_decide (Z.land a (a - 1) = 0).

Definition quantum_place (h : gmap Z (list byte)) (al : option Z) (sz : Z)
  : option (Z * list byte) :=
  let a := match al with Some a => Z.max 16 a | None => 16 end in
  if bool_decide (sz ≤ JE_LARGE_MAX) &&
     match al with Some a => is_pow2 a | None => true end
  then Some ((heap_top h / a + 1) * a, replicate (Z.to_nat (je_size_class sz)) xa5)
  else None.

Definition quantum_backing : Backing :=
  {| je_place := quantum_place; je_narenas := Some 4; je_ctl_status := λ _, 0 |}.

(** ** Sample configurations, states and runs *)

(** Neither symbol defined, and [CC_MEMORY_TRACKER] alone defined (nothing
    in the file defines [COCOS_MEMORY_TRACKER]). *)
Definition untracked : Config :=
  {| CC_MEMORY_TRACKER := false; COCOS_MEMORY_TRACKER := false |}.
Definition tracked : Config :=
  {| CC_MEMORY_TRACKER := true; COCOS_MEMORY_TRACKER := false |}.

(** A state with one tracked allocation of 12 bytes, made through the
    facade over the reference backing allocator; its block is at address 16. *)
Definition sample_state : State :=
  default init_state
    (final_state (AllocBytes (B:=quantum_backing) tracked 12 "main.cpp" 42 "main" init_state)).

Definition sample_block : list byte := replicate 12 xa5 ++ tag_bytes.

(** The scenario of the spec run on the reference allocator: allocate 100
    bytes, write 101 bytes of 0xAB, deallocate. *)
Definition overrun_run : Outcome unit :=
  (let* p := AllocBytes (B:=quantum_backing) tracked 100 "test.cpp" 1 "test" in
   user_write p (replicate 101 xab) ;;;
   DeallocBytes tracked p) init_state.

(** The same request made through both allocation entry points, from the
    initial state of the reference allocator. *)
Definition aligned_run : Outcome Z :=
  AllocBytesAligned (B:=quantum_backing) tracked 16 100 "test.cpp" 1 "test" init_state.

Definition plain_run : Outcome Z :=
  AllocBytes (B:=quantum_backing) tracked 100 "test.cpp" 1 "test" init_state.

Definition aligned_state : State := default init_state (final_state aligned_run).
Definition plain_state : State := default init_state (final_state plain_run).

(** A request the reference allocator refuses, as jemalloc refuses every
    size above its largest size class. *)
Definition HUGE : Z := 2 ^ 63.

(** A tracked run that mixes the two allocation entry points. *)
Definition mixed_run : Outcome (gmap Z Z) :=
  run (B:=quantum_backing) tracked
    [OpAlloc 12; OpAllocAligned 64 100; OpDealloc 16] ∅ init_state.

(** A tracked run through the three instrumented entry points. *)
Definition plain_ops : list Op :=
  [OpAlloc 12; OpRealloc 16 40; OpAlloc 0; OpDealloc 48].

Definition plain_seq_run : Outcome (gmap Z Z) :=
  run (B:=quantum_backing) tracked plain_ops ∅ init_state.

Definition plain_seq_live : gmap Z Z :=
  match plain_seq_run with
  | Ok live _ => live
  | Crash _ => ∅
  end.

Definition plain_seq_state : State := default init_state (final_state plain_seq_run).

(** A computation that never changes the ledger and never fails an
    assertion. *)
Definition ledger_quiet {A} (m : M A) : Prop :=
  ∀ s, match m s with
       | Ok _ s' => ledger s' = ledger s
       | Crash f => f = WildAccess
       end.

(** The sample block after the application has overwritten all 16 usable
    bytes, the tag included. *)
Definition smashed_block : list byte := replicate 16 xab.

Definition smashed_state : State :=
  default init_state (final_state (user_write 16 smashed_block sample_state)).

(** The sample block resized to 40 bytes. *)
Definition resized_state : State :=
  default init_state
    (final_state (ReallocBytes (B:=quantum_backing) tracked 16 40
                    "main.cpp" 43 "main" sample_state)).

(** * The frustum shape ([cocos/core/geometry/frustum.ts]) *)

(** A frustum object is its shape type, its array of planes and its array of
    vertices, by value: the constructor fills both arrays with objects of
    their own, and every method writes into the object found at an index,
    never the index itself.  An access to a property of an element that is
    not there is a TypeError in JavaScript; it is [None] here. *)
Module Frustum.

(** JavaScript numbers with the operators the file applies to them, and the
    two shape types of [enums]. *)
Class Number := {
  num : Type;
  lit : Z → num;               (* an integer literal *)
  neg : num → num;             (* unary minus *)
  add : num → num → num;
  sub : num → num → num;
  mul : num → num → num;
  div : num → num → num;
  SHAPE_FRUSTUM : Z;
  SHAPE_FRUSTUM_ACCURATE : Z
}.

Section Shapes.
Context {N : Number}.

Record Vec3 := { x : num; y : num; z : num }.

Record Mat4 := {
  m00 : num; m01 : num; m02 : num; m03 : num;
  m04 : num; m05 : num; m06 : num; m07 : num;
  m08 : num; m09 : num; m10 : num; m11 : num;
  m12 : num; m13 : num; m14 : num; m15 : num
}.

(** A plane: its normal [n] and its distance [d]. *)
Record plane := { n : Vec3; d : num }.

Record frustum := {
  _type : Z;
  planes : list plane;
  vertices : list Vec3
}.

End Shapes.

(** The functions of [Vec3] and [plane] that compute: each fills its [out]
    argument from its other arguments alone. *)
Class Geometry {N : Number} := {
  Vec3_transformMat4 : Vec3 → Mat4 → Vec3;
  Vec3_multiplyScalar : Vec3 → num → Vec3;
  Vec3_length : Vec3 → num;
  plane_fromPoints : Vec3 → Vec3 → Vec3 → plane
}.

Section Methods.
Context {N : Number} {G : Geometry}.

(** [Vec3.set(out, x, y, z)] and [new Vec3(x, y, z)]. *)
Definition Vec3_set (vx vy vz : num) : Vec3 := {| x := vx; y := vy; z := vz |}.

(** [plane.create(nx, ny, nz, d)]. *)
Definition plane_create (nx ny nz pd : num) : plane :=
  {| n := Vec3_set nx ny nz; d := pd |}.

Definition _v : list Vec3 :=
  [ Vec3_set (lit 1) (lit 1) (lit 1);
    Vec3_set (lit (-1)) (lit 1) (lit 1);
    Vec3_set (lit (-1)) (lit (-1)) (lit 1);
    Vec3_set (lit 1) (lit (-1)) (lit 1);
    Vec3_set (lit 1) (lit 1) (lit (-1));
    Vec3_set (lit (-1)) (lit 1) (lit (-1));
    Vec3_set (lit (-1)) (lit (-1)) (lit (-1));
    Vec3_set (lit 1) (lit (-1)) (lit (-1)) ].

(** The object at [vertices[i]] receives [v]. *)
Definition write_vertex (i : nat) (v : Vec3) (f : frustum) : option frustum :=
  _ ← vertices f !! i;
  Some {| _type := _type f; planes := planes f;
          vertices := <[i := v]> (vertices f) |}.

(** The object at [planes[i]] receives [p]. *)
Definition write_plane (i : nat) (p : plane) (f : frustum) : option frustum :=
  _ ← planes f !! i;
  Some {| _type := _type f; planes := <[i := p]> (planes f);
          vertices := vertices f |}.

(** [plane.fromPoints(planes[i], vertices[a], vertices[b], vertices[c])]. *)
Definition plane_from (i a b c : nat) (f : frustum) : option frustum :=
  va ← vertices f !! a;
  vb ← vertices f !! b;
  vc ← vertices f !! c;
  write_plane i (plane_fromPoints va vb vc) f.

(** [for (let i = start; i < start + count; ++i) body]. *)
Fixpoint for_loop (count i : nat) (body : nat → frustum → option frustum)
    (f : frustum) : option frustum :=
  match count with
  | O => Some f
  | S count' => f' ← body i f; for_loop count' (S i) body f'
  end.

(** [set accurate (b)]. *)
Definition set_accurate (b : bool) (f : frustum) : frustum :=
  {| _type := if b then SHAPE_FRUSTUM_ACCURATE else SHAPE_FRUSTUM;
     planes := planes f; vertices := vertices f |}.

(** [get type ()]. *)
Definition type (f : frustum) : Z := _type f.

(** The constructor. *)
Definition new_frustum : frustum :=
  {| _type := SHAPE_FRUSTUM;
     planes := replicate 6 (plane_create (lit 0) (lit 0) (lit 0) (lit 0));
     vertices := replicate 8 (Vec3_set (lit 0) (lit 0) (lit 0)) |}.

Definition create : frustum := new_frustum.

Definition createOrtho (out : frustum) (width height near far : num)
    (transform : Mat4) : option frustum :=
  let halfWidth := div width (lit 2) in
  let halfHeight := div height (lit 2) in
  let corner vx vy vz := Vec3_transformMat4 (Vec3_set vx vy vz) transform in
  f ← write_vertex 0 (corner halfWidth halfHeight near) out;
  f ← write_vertex 1 (corner (neg halfWidth) halfHeight near) f;
  f ← write_vertex 2 (corner (neg halfWidth) (neg halfHeight) near) f;
  f ← write_vertex 3 (corner halfWidth (neg halfHeight) near) f;
  f ← write_vertex 4 (corner halfWidth halfHeight far) f;
  f ← write_vertex 5 (corner (neg halfWidth) halfHeight far) f;
  f ← write_vertex 6 (corner (neg halfWidth) (neg halfHeight) far) f;
  f ← write_vertex 7 (corner halfWidth (neg halfHeight) far) f;
  f ← plane_from 0 1 6 5 f;
  f ← plane_from 1 3 4 7 f;
  f ← plane_from 2 6 3 7 f;
  f ← plane_from 3 0 5 4 f;
  f ← plane_from 4 2 0 3 f;
  plane_from 0 7 5 6 f.

(** [plane.copy] and [Vec3.copy] copy the fields. *)
Definition copy (out f : frustum) : option frustum :=
  let out := {| _type := _type f; planes := planes out; vertices := vertices out |} in
  out ← for_loop 6 0 (λ i o, p ← planes f !! i; write_plane i p o) out;
  for_loop 8 0 (λ i o, v ← vertices f !! i; write_vertex i v o) out.

Definition clone (f : frustum) : option frustum := copy new_frustum f.

(** [Vec3.set(this.planes[i].n, nx, ny, nz); this.planes[i].d = pd]. *)
Definition set_plane (i : nat) (nx ny nz pd : num) (f : frustum) : option frustum :=
  write_plane i {| n := Vec3_set nx ny nz; d := pd |} f.

(** One round of the normalising loop. *)
Definition normalize_plane (i : nat) (f : frustum) : option frustum :=
  pl ← planes f !! i;
  let invDist := div (lit 1) (Vec3_length (n pl)) in
  write_plane i {| n := Vec3_multiplyScalar (n pl) invDist;
                   d := mul (d pl) invDist |} f.

Definition update (f : frustum) (m inv : Mat4) : option frustum :=
  (* left, right, bottom, top, near, far *)
  f ← set_plane 0 (add (m03 m) (m00 m)) (add (m07 m) (m04 m)) (add (m11 m) (m08 m))
        (neg (add (m15 m) (m12 m))) f;
  f ← set_plane 1 (sub (m03 m) (m00 m)) (sub (m07 m) (m04 m)) (sub (m11 m) (m08 m))
        (neg (sub (m15 m) (m12 m))) f;
  f ← set_plane 2 (add (m03 m) (m01 m)) (add (m07 m) (m05 m)) (add (m11 m) (m09 m))
        (neg (add (m15 m) (m13 m))) f;
  f ← set_plane 3 (sub (m03 m) (m01 m)) (sub (m07 m) (m05 m)) (sub (m11 m) (m09 m))
        (neg (sub (m15 m) (m13 m))) f;
  f ← set_plane 4 (add (m03 m) (m02 m)) (add (m07 m) (m06 m)) (add (m11 m) (m10 m))
        (neg (add (m15 m) (m14 m))) f;
  f ← set_plane 5 (sub (m03 m) (m02 m)) (sub (m07 m) (m06 m)) (sub (m11 m) (m10 m))
        (neg (sub (m15 m) (m14 m))) f;
  if decide (_type f ≠ SHAPE_FRUSTUM_ACCURATE) then Some f
  else
    f ← for_loop 6 0 normalize_plane f;
    for_loop 8 0 (λ i f, v ← _v !! i; write_vertex i (Vec3_transformMat4 v inv) f) f.

Definition transform (f : frustum) (mat : Mat4) : option frustum :=
  if decide (_type f ≠ SHAPE_FRUSTUM_ACCURATE) then Some f
  else
    f ← for_loop 8 0
          (λ i f, v ← vertices f !! i; write_vertex i (Vec3_transformMat4 v mat) f) f;
    f ← plane_from 0 1 5 6 f;
    f ← plane_from 1 3 7 4 f;
    f ← plane_from 2 6 7 3 f;
    f ← plane_from 3 0 4 5 f;
    f ← plane_from 4 2 3 0 f;
    plane_from 0 7 6 5 f.

(** Six planes and eight vertices, as the constructor makes them. *)
Definition well_formed (f : frustum) : Prop :=
  length (planes f) = 6%nat ∧ length (vertices f) = 8%nat.

End Methods.

(** Integer stand-ins for the numbers and the geometry, to run the methods
    on concrete frustums. *)
Definition sample_number : Number :=
  {| num := Z; lit := id; neg := Z.opp; add := Z.add; sub := Z.sub;
     mul := Z.mul; div := Z.div;
     SHAPE_FRUSTUM := 128; SHAPE_FRUSTUM_ACCURATE := 256 |}.

Definition zvec (a b c : Z) : @Vec3 sample_number :=
  @Build_Vec3 sample_number a b c.

Definition sample_geometry : @Geometry sample_number :=
  @Build_Geometry sample_number
    (λ v m, zvec (Z.add (x v) (m12 m)) (Z.add (y v) (m13 m)) (Z.add (z v) (m14 m)))
    (λ v k, zvec (Z.mul (x v) k) (Z.mul (y v) k) (Z.mul (z v) k))
    (λ v, Z.add (Z.abs (x v)) (Z.add (Z.abs (y v)) (Z.abs (z v))))
    (λ a b c,
       @Build_plane sample_number
         (zvec (Z.sub (x b) (x a)) (Z.sub (y c) (y a)) (Z.sub (z b) (z c)))
         (x a)).

(** The identity matrix moved by (1, 2, 3), the frustum the constructor
    makes, and the same frustum set to accurate. *)
Definition sample_mat : @Mat4 sample_number :=
  @Build_Mat4 sample_number 1 0 0 0  0 1 0 0  0 0 1 0  1 2 3 1.

Definition sample_plain : @frustum sample_number := @new_frustum sample_number.

Definition sample_accurate : @frustum sample_number :=
  @set_accurate sample_number true sample_plain.

(** A frustum of the constructor's type and vertices with other planes. *)
Definition sample_stale : @frustum sample_number :=
  @Build_frustum sample_number (_type sample_plain)
    (replicate 6 (@plane_create sample_number 1 2 3 4)) (vertices sample_plain).

(** A frustum whose arrays were cut short: five planes, seven vertices. *)
Definition sample_short : @frustum sample_number :=
  @Build_frustum sample_number (_type sample_plain)
    (take 5 (planes sample_plain)) (take 7 (vertices sample_plain)).

End Frustum.

(** * Properties *)

(** ** Formatting and the trim buffer *)

Lemma strlen_s_app (a b : string) : strlen_s (a +:+ b) = strlen_s a + strlen_s b.
Proof.
  unfold strlen_s. induction a as [|c a IH].
  - reflexivity.
  - change (String c a +:+ b) with (String c (a +:+ b)).
    cbn [String.length]. lia.
Qed.

Lemma fmt_u_length (fuel : nat) (n : Z) : strlen_s (fmt_u fuel n) ≤ Z.of_nat fuel.
Proof.
  revert n. induction fuel as [|fuel IH]; intros n.
  - reflexivity.
  - cbn [fmt_u]. case_decide.
    + change (strlen_s (String (digit_char n) "")) with 1. lia.
    + rewrite strlen_s_app. specialize (IH (n / 10)).
      change (strlen_s (String (digit_char (n mod 10)) "")) with 1. lia.
Qed.

Lemma fmt_d_length (n : Z) : strlen_s (fmt_d n) ≤ 11.
Proof.
  unfold fmt_d. case_decide.
  - rewrite strlen_s_app. change (strlen_s "-") with 1.
    pose proof (fmt_u_length 10 (- n)). lia.
  - pose proof (fmt_u_length 10 n). lia.
Qed.

Lemma parse_u_app (a b : string) (acc : Z) :
  parse_u acc (a +:+ b) = parse_u (parse_u acc a) b.
Proof.
  revert acc. induction a as [|c a IH]; intros acc; [reflexivity|].
  change (String c a +:+ b) with (String c (a +:+ b)).
  cbn [parse_u]. apply IH.
Qed.

Lemma digit_val_char (d : Z) : 0 ≤ d < 10 → digit_val (digit_char d) = d.
Proof.
  intros Hd. unfold digit_val, digit_char.
  rewrite nat_ascii_embedding by lia. lia.
Qed.

(** With enough fuel for its digits, [fmt_u] prints exactly its argument. *)
Lemma parse_fmt_u (fuel : nat) (n : Z) :
  0 ≤ n < 10 ^ Z.of_nat fuel → parse_u 0 (fmt_u fuel n) = n.
Proof.
  revert n. induction fuel as [|fuel IH]; intros n Hn.
  - change (10 ^ Z.of_nat 0) with 1 in Hn. cbn [fmt_u parse_u]. lia.
  - cbn [fmt_u]. case_decide.
    + cbn [parse_u]. rewrite digit_val_char by lia. lia.
    + rewrite parse_u_app, IH.
      * cbn [parse_u]. rewrite digit_val_char by (apply Z.mod_pos_bound; lia).
        pose proof (Z.div_mod n 10). lia.
      * rewrite Nat2Z.inj_succ, Z.pow_succ_r in Hn by lia.
        split; [apply Z.div_pos; lia | apply Z.div_lt_upper_bound; lia].
Qed.

Lemma to_int_range (z : Z) : - 2 ^ 31 ≤ to_int z < 2 ^ 31.
Proof.
  unfold to_int. pose proof (Z.mod_pos_bound (z + 2 ^ 31) (2 ^ 32)). lia.
Qed.

Lemma to_int_id (z : Z) : - 2 ^ 31 ≤ z < 2 ^ 31 → to_int z = z.
Proof. intros Hz. unfold to_int. rewrite Z.mod_small; lia. Qed.

(** [%d] prints every [int] faithfully: a sign and the digits of the
    magnitude, for which ten digits of fuel are enough. *)
Lemma parse_fmt_d (n : Z) :
  - 2 ^ 31 ≤ n < 2 ^ 31 →
  fmt_d n = (if decide (n < 0) then "-" else "") +:+ fmt_u 10 (Z.abs n)
  ∧ parse_u 0 (fmt_u 10 (Z.abs n)) = Z.abs n.
Proof.
  intros Hn. split.
  - unfold fmt_d. case_decide.
    + rewrite Z.abs_neq by lia. reflexivity.
    + rewrite Z.abs_eq by lia. reflexivity.
  - apply parse_fmt_u. change (10 ^ Z.of_nat 10) with 10000000000. lia.
Qed.

Lemma purge_name_length (n : Z) :
  strlen_s ("arena." +:+ fmt_d n +:+ ".purge") = 12 + strlen_s (fmt_d n).
Proof.
  rewrite !strlen_s_app.
  change (strlen_s "arena.") with 6. change (strlen_s ".purge") with 6. lia.
Qed.

(** C10: for every value of the [int] [narenas], the control name
    "arena.<narenas>.purge" and its terminator fit the 24-byte local buffer
    of [TrimAlloc]. *)
Theorem trim_name_fits_buffer (narenas : Z) :
  - 2 ^ 31 ≤ narenas < 2 ^ 31 →
  strlen_s ("arena." +:+ fmt_d narenas +:+ ".purge") + 1 ≤ 24.
Proof.
  intros Hn. rewrite purge_name_length.
  destruct (parse_fmt_d narenas Hn) as [-> _].
  rewrite strlen_s_app. pose proof (fmt_u_length 10 (Z.abs narenas)).
  case_decide.
  - change (strlen_s "-") with 1. lia.
  - change (strlen_s "") with 0. lia.
Qed.

(** The bound is tight: the most negative [int] fills the buffer exactly. *)
Lemma trim_name_fits_buffer_witness :
  (- 2 ^ 31 ≤ -2147483648 < 2 ^ 31) ∧
  strlen_s ("arena." +:+ fmt_d (-2147483648) +:+ ".purge") + 1 ≤ 24.
Proof.
  split; [lia | apply (trim_name_fits_buffer (-2147483648)); lia].
Defined.

(** ** Trim *)

(** C9: [TrimAlloc] issues exactly two control commands, in this order: the
    query "arenas.narenas", then the single purge "arena.<n>.purge" whose
    index is the arena count just read (the backing allocator's purge-all
    index), or 0 when the query stored nothing.  The statuses returned by
    the backing allocator are dropped: whatever they are, the call returns
    normally and touches neither the heap nor the ledger. *)
Theorem TrimAlloc_queries_then_purges (B : Backing) (st : State) :
  let n := match je_narenas with Some v => to_int v | None => 0 end in
  let name := "arena." +:+ fmt_d n +:+ ".purge" in
  TrimAlloc st =
    Ok tt {| heap := heap st; ledger := ledger st;
             mallctl_log := mallctl_log st ++ ["arenas.narenas"; name];
             stdout := stdout st ++
               ["jemalloc trim: " +:+ name +:+ String (ascii_of_nat 10) ""] |}.
Proof.
  intros n name. unfold TrimAlloc, bind, je_mallctl_read, sprintf. cbn [snd].
  fold n. fold name.
  assert (Hfit : strlen_s name + 1 ≤ 24).
  { unfold name. rewrite purge_name_length. pose proof (fmt_d_length n). lia. }
  destruct (decide (strlen_s name + 1 ≤ 24)) as [_|Hno]; [|contradiction].
  unfold ret, printf, je_mallctl, log_ctl. cbn.
  by rewrite <- app_assoc.
Qed.

(** On the reference allocator, configured with four arenas, the purge
    names index 4. *)
Example TrimAlloc_reference :
  mallctl_log <$> final_state (TrimAlloc (B:=quantum_backing) init_state)
  = Some ["arenas.narenas"; "arena.4.purge"].
Proof. reflexivity. Qed.

(** ** Byte ranges *)

Lemma length_splice (d bs : list byte) (off : nat) :
  (off + length bs ≤ length d)%nat → length (splice d off bs) = length d.
Proof.
  intros H. unfold splice. rewrite !length_app, length_take, length_drop. lia.
Qed.

Lemma drop_splice_at (d bs : list byte) (off : nat) :
  (off ≤ length d)%nat → drop off (splice d off bs) = bs ++ drop (off + length bs) d.
Proof.
  intros H. unfold splice.
  rewrite drop_app_length'; [done|]. rewrite length_take. lia.
Qed.


Lemma drop_splice_after (d bs : list byte) (k : nat) :
  (length bs ≤ k)%nat → drop k (splice d 0 bs) = drop k d.
Proof.
  intros Hk. unfold splice. rewrite take_0, app_nil_l.
  rewrite drop_app_ge by lia. rewrite drop_drop. f_equal. simpl. lia.
Qed.

Lemma take_splice_start (d bs : list byte) :
  take (length bs) (splice d 0 bs) = bs.
Proof. unfold splice. rewrite take_0, app_nil_l. apply take_app_length. Qed.

Lemma length_stamped (d : list byte) :
  (4 ≤ length d)%nat → length (stamped d) = length d.
Proof. intros H. unfold stamped. apply length_splice. simpl. lia. Qed.

Lemma canary_ok_stamped (d : list byte) :
  (4 ≤ length d)%nat → canary_ok (stamped d) = true.
Proof.
  intros H. unfold canary_ok. rewrite length_stamped by done.
  unfold stamped. rewrite drop_splice_at by lia.
  rewrite take_app_length'; [|reflexivity].
  apply bool_decide_eq_true. reflexivity.
Qed.


(** A write that stays below the tag leaves the check passing. *)
Lemma canary_ok_write_below (d bs : list byte) :
  (length bs + 4 ≤ length d)%nat →
  canary_ok (splice d 0 bs) = canary_ok d.
Proof.
  intros H. unfold canary_ok.
  rewrite length_splice by (simpl; lia).
  rewrite drop_splice_after by lia. reflexivity.
Qed.

(** ** The overflow guard on a live block *)

Lemma usable_size_live (ptr : Z) (d : list byte) (s : State) :
  heap s !! ptr = Some d → ptr ≠ NULL →
  je_malloc_usable_size ptr s = Ok (Z.of_nat (length d)) s.
Proof.
  intros Hd Hp. unfold je_malloc_usable_size.
  destruct (decide (ptr = NULL)); [contradiction|]. by rewrite Hd.
Qed.

Lemma load_live (ptr off n : Z) (d : list byte) (s : State) :
  heap s !! ptr = Some d → 0 ≤ off → 0 ≤ n → off + n ≤ Z.of_nat (length d) →
  load ptr off n s = Ok (take (Z.to_nat n) (drop (Z.to_nat off) d)) s.
Proof.
  intros Hd ? ? ?. unfold load. rewrite Hd.
  destruct (decide _) as [_|Hno]; [reflexivity | lia].
Qed.

Lemma store_live (ptr off : Z) (bs d : list byte) (s : State) :
  heap s !! ptr = Some d → 0 ≤ off →
  off + Z.of_nat (length bs) ≤ Z.of_nat (length d) →
  store ptr off bs s =
    Ok tt (set_heap (<[ptr := splice d (Z.to_nat off) bs]> (heap s)) s).
Proof.
  intros Hd ? ?. unfold store. rewrite Hd.
  destruct (decide _) as [_|Hno]; [reflexivity | lia].
Qed.

(** Validation of a live block: passes iff its last four bytes are the
    tag, and is a fatal assertion otherwise. *)
Lemma CheckOverflowFree_live (ptr : Z) (d : list byte) (s : State) :
  heap s !! ptr = Some d → ptr ≠ NULL → 4 ≤ Z.of_nat (length d) →
  CheckOverflowFree ptr s = if canary_ok d then Ok tt s else Crash AssertFailed.
Proof.
  intros Hd Hp Hlen. unfold CheckOverflowFree, bind.
  rewrite (usable_size_live _ _ _ Hd Hp).
  rewrite (load_live _ _ _ _ _ Hd) by lia.
  unfold canary_ok, CCASSERT.
  replace (Z.to_nat (Z.of_nat (length d) - 4)) with (length d - 4)%nat by lia.
  change (Z.to_nat 4) with 4%nat.
  destruct (bool_decide _); reflexivity.
Qed.

Lemma je_free_live (ptr : Z) (d : list byte) (s : State) :
  heap s !! ptr = Some d → ptr ≠ NULL →
  je_free ptr s = Ok tt (set_heap (delete ptr (heap s)) s).
Proof.
  intros Hd Hp. unfold je_free.
  destruct (decide (ptr = NULL)); [contradiction|]. by rewrite Hd.
Qed.

(** The release sequence shared by [DeallocBytes] and [ReallocBytes]. *)
Lemma release_live (ptr : Z) (d : list byte) (s : State) :
  heap s !! ptr = Some d → ptr ≠ NULL → 4 ≤ Z.of_nat (length d) →
  (CheckOverflowFree ptr ;;; RecordFree ptr ;;; je_free ptr) s =
    if canary_ok d then Ok tt (released ptr s) else Crash AssertFailed.
Proof.
  intros Hd Hp Hlen. unfold bind at 1.
  rewrite (CheckOverflowFree_live _ _ _ Hd Hp Hlen).
  destruct (canary_ok d); [|reflexivity].
  unfold bind, RecordFree.
  by rewrite (je_free_live ptr d) by done.
Qed.

(** ** Deallocation *)

(** C8: [DeallocBytes(NULL)] returns at once and leaves the whole state as
    it was, in every state and configuration.  For a non-null pointer to a
    live block (large enough to hold the tag the configuration appends), with
    tracking it validates the canary, removes the ledger record and frees the
    block, and the only failure is the fatal assertion on a canary mismatch;
    without tracking it only frees the block. *)
Theorem DeallocBytes_contract (cfg : Config) (st : State) :
  DeallocBytes cfg NULL st = Ok tt st ∧
  ∀ (ptr : Z) (d : list byte),
    ptr ≠ NULL →
    heap st !! ptr = Some d →
    MEM_CHECKTAG_SIZE cfg ≤ Z.of_nat (length d) →
    DeallocBytes cfg ptr st =
      if CC_MEMORY_TRACKER cfg then
        if canary_ok d then Ok tt (released ptr st) else Crash AssertFailed
      else Ok tt (set_heap (delete ptr (heap st)) st).
Proof.
  split; [reflexivity|]. intros ptr d Hp Hd Hlen.
  unfold DeallocBytes, MEM_CHECKTAG_SIZE in *.
  destruct (decide (ptr = NULL)); [contradiction|].
  destruct (CC_MEMORY_TRACKER cfg).
  - by apply release_live.
  - by apply (je_free_live ptr d).
Qed.

Lemma sample_state_block : heap sample_state !! 16 = Some sample_block.
Proof. vm_compute. reflexivity. Qed.

(** On the empty heap for the null case, and on the sample block for the
    live case. *)
Lemma DeallocBytes_contract_witness :
  (DeallocBytes tracked NULL init_state = Ok tt init_state ∧
   DeallocBytes untracked NULL init_state = Ok tt init_state) ∧
  (16 ≠ NULL ∧ heap sample_state !! 16 = Some sample_block ∧
   MEM_CHECKTAG_SIZE tracked ≤ Z.of_nat (length sample_block)) ∧
  DeallocBytes tracked NULL sample_state = Ok tt sample_state ∧
  DeallocBytes tracked 16 sample_state =
    Ok tt (released 16 sample_state).
Proof.
  assert (H1 : 16 ≠ NULL) by (unfold NULL; lia).
  assert (H2 : heap sample_state !! 16 = Some sample_block)
    by (vm_compute; reflexivity).
  assert (H3 : MEM_CHECKTAG_SIZE tracked ≤ Z.of_nat (length sample_block))
    by (vm_compute; discriminate).
  split; [|split; [auto|]].
  - exact (conj (proj1 (DeallocBytes_contract tracked init_state))
                (proj1 (DeallocBytes_contract untracked init_state))).
  - exact (conj (proj1 (DeallocBytes_contract tracked sample_state))
                (proj2 (DeallocBytes_contract tracked sample_state)
                   16 sample_block H1 H2 H3)).
Defined.

(** ** Reallocation: the degenerate cases *)

(** C6: with tracking enabled, in every state, [ReallocBytes(null, 0)]
    returns null and leaves the state untouched, and [ReallocBytes(null, N)]
    with [N > 0] is [AllocBytes(N)] (same result, same state, same fault if
    any); and [ReallocBytes(ptr, 0)] on a live block validates the canary,
    removes the ledger record, frees the block and returns null, the canary
    mismatch being a fatal assertion. *)
Theorem ReallocBytes_case_split (B : Backing) (cocos : bool) (st : State)
    (file : string) (line : Z) (func : string) :
  let cfg := {| CC_MEMORY_TRACKER := true; COCOS_MEMORY_TRACKER := cocos |} in
  ReallocBytes cfg NULL 0 file line func st = Ok NULL st ∧
  (∀ N : Z,
     N ≠ 0 →
     ReallocBytes cfg NULL N file line func st
     = AllocBytes cfg N file line func st) ∧
  (∀ (ptr : Z) (d : list byte),
     ptr ≠ NULL →
     heap st !! ptr = Some d →
     4 ≤ Z.of_nat (length d) →
     ReallocBytes cfg ptr 0 file line func st =
       if canary_ok d then Ok NULL (released ptr st) else Crash AssertFailed).
Proof.
  intros cfg. split; [reflexivity|]. split.
  - intros N HN. unfold ReallocBytes. cbn [CC_MEMORY_TRACKER cfg].
    destruct (decide (NULL ≠ NULL)); [contradiction|].
    destruct (decide (N ≠ 0)); [reflexivity | contradiction].
  - intros ptr d Hp Hd Hlen. unfold ReallocBytes. cbn [CC_MEMORY_TRACKER cfg].
    destruct (decide (ptr ≠ NULL)); [|contradiction].
    destruct (decide (0 = 0)); [|contradiction].
    unfold bind. rewrite (CheckOverflowFree_live _ _ _ Hd Hp Hlen).
    destruct (canary_ok d); [|reflexivity].
    unfold RecordFree. by rewrite (je_free_live ptr d) by done.
Qed.

(** On the empty heap for the two null cases, and on the sample block for
    the release. *)
Lemma ReallocBytes_case_split_witness :
  (ReallocBytes (B:=quantum_backing) tracked NULL 0 "main.cpp" 43 "main" init_state
     = Ok NULL init_state ∧
   (8 ≠ 0 ∧
    ReallocBytes (B:=quantum_backing) tracked NULL 8 "main.cpp" 43 "main" init_state
    = AllocBytes (B:=quantum_backing) tracked 8 "main.cpp" 43 "main" init_state)) ∧
  (16 ≠ NULL ∧ heap sample_state !! 16 = Some sample_block ∧
   4 ≤ Z.of_nat (length sample_block)) ∧
  ReallocBytes (B:=quantum_backing) tracked NULL 0 "main.cpp" 43 "main" sample_state
    = Ok NULL sample_state ∧
  ReallocBytes (B:=quantum_backing) tracked NULL 8 "main.cpp" 43 "main" sample_state
    = AllocBytes (B:=quantum_backing) tracked 8 "main.cpp" 43 "main" sample_state ∧
  ReallocBytes (B:=quantum_backing) tracked 16 0 "main.cpp" 43 "main" sample_state
    = Ok NULL (released 16 sample_state).
Proof.
  assert (H1 : 8 ≠ 0) by lia.
  assert (H2 : 16 ≠ NULL) by (unfold NULL; lia).
  assert (H3 : heap sample_state !! 16 = Some sample_block)
    by (vm_compute; reflexivity).
  assert (H4 : 4 ≤ Z.of_nat (length sample_block)) by (vm_compute; discriminate).
  pose (at_init := ReallocBytes_case_split quantum_backing false init_state
                     "main.cpp" 43 "main").
  pose (at_sample := ReallocBytes_case_split quantum_backing false sample_state
                       "main.cpp" 43 "main").
  split; [|split; [auto|]].
  - exact (conj (proj1 at_init) (conj H1 (proj1 (proj2 at_init) 8 H1))).
  - exact (conj (proj1 at_sample)
             (conj (proj1 (proj2 at_sample) 8 H1)
                   (proj2 (proj2 at_sample) 16 sample_block H2 H3 H4))).
Defined.

(** ** Allocation *)

Section Allocation.
Context {B : Backing}.

Lemma CheckOverflowAlloc_live (p : Z) (d : list byte) (s : State) :
  heap s !! p = Some d → p ≠ NULL → 4 ≤ Z.of_nat (length d) →
  CheckOverflowAlloc p s = Ok tt (set_heap (<[p := stamped d]> (heap s)) s).
Proof.
  intros Hd Hp Hlen. unfold CheckOverflowAlloc, bind.
  rewrite (usable_size_live _ _ _ Hd Hp).
  rewrite (store_live _ _ _ d) by (try done; simpl; lia).
  unfold stamped.
  by replace (Z.to_nat (Z.of_nat (length d) - 4)) with (length d - 4)%nat by lia.
Qed.

(** Stamping through the null pointer is an access outside every block. *)
Lemma CheckOverflowAlloc_null (s : State) :
  CheckOverflowAlloc NULL s = Crash WildAccess.
Proof.
  unfold CheckOverflowAlloc, bind, je_malloc_usable_size.
  destruct (decide (NULL = NULL)); [|contradiction].
  unfold store. destruct (heap s !! NULL); [|reflexivity].
  destruct (decide _) as [[Hneg _]|_]; [lia | reflexivity].
Qed.

Lemma je_malloc_placed (sz p : Z) (d : list byte) (s : State) :
  je_place (heap s) None sz = Some (p, d) →
  je_malloc sz s = Ok p (set_heap (<[p := d]> (heap s)) s).
Proof. intros H. unfold je_malloc, je_alloc_at. by rewrite H. Qed.

Lemma je_malloc_refused (sz : Z) (s : State) :
  je_place (heap s) None sz = None → je_malloc sz s = Ok NULL s.
Proof. intros H. unfold je_malloc, je_alloc_at. by rewrite H. Qed.

(** The instrumented allocation path, shared by [AllocBytes] and both
    allocating branches of [ReallocBytes]. *)
Lemma stamp_and_record (p : Z) (d : list byte) (count : Z)
    (file : string) (line : Z) (func : string) (s : State) :
  p ≠ NULL → 4 ≤ Z.of_nat (length d) →
  (CheckOverflowAlloc p ;;; RecordAlloc p count file line func)
    (set_heap (<[p := d]> (heap s)) s)
  = Ok tt (allocated p d count file line func s).
Proof.
  intros Hp Hlen. unfold bind.
  rewrite (CheckOverflowAlloc_live p d); [|apply lookup_insert_eq|done..].
  unfold RecordAlloc, allocated, set_heap, set_ledger. cbn.
  by rewrite insert_insert_eq.
Qed.

(** Were both symbols defined, [AllocBytesAligned] would stamp and record
    like [AllocBytes]. *)
Lemma AllocBytesAligned_both_defined (align count p : Z) (d : list byte)
    (file : string) (line : Z) (func : string) (s : State) :
  je_place (heap s) (Some align) (to_size_t (count + 4)) = Some (p, d) →
  p ≠ NULL → 4 ≤ Z.of_nat (length d) →
  AllocBytesAligned {| CC_MEMORY_TRACKER := true; COCOS_MEMORY_TRACKER := true |}
    align count file line func s
  = Ok p (allocated p d count file line func s).
Proof.
  intros Hpl Hp Hlen. unfold AllocBytesAligned.
  cbn [CC_MEMORY_TRACKER COCOS_MEMORY_TRACKER MEM_CHECKTAG_SIZE].
  unfold bind at 1, je_aligned_alloc, je_alloc_at. rewrite Hpl.
  pose proof (stamp_and_record p d count file line func s Hp Hlen) as Hsr.
  unfold bind in *. destruct (CheckOverflowAlloc p _); [|discriminate].
  by rewrite Hsr.
Qed.

Section Tracked.
Variable cocos : bool.
Let cfg := {| CC_MEMORY_TRACKER := true; COCOS_MEMORY_TRACKER := cocos |}.

Lemma AllocBytes_tracked_placed (count p : Z) (d : list byte)
    (file : string) (line : Z) (func : string) (s : State) :
  je_place (heap s) None (to_size_t (count + 4)) = Some (p, d) →
  p ≠ NULL → 4 ≤ Z.of_nat (length d) →
  AllocBytes cfg count file line func s =
    Ok p (allocated p d count file line func s).
Proof.
  intros Hpl Hp Hlen. unfold AllocBytes. cbn [CC_MEMORY_TRACKER MEM_CHECKTAG_SIZE cfg].
  unfold bind at 1. rewrite (je_malloc_placed _ _ _ _ Hpl).
  pose proof (stamp_and_record p d count file line func s Hp Hlen) as Hsr.
  unfold bind in *. destruct (CheckOverflowAlloc p _); [|discriminate].
  by rewrite Hsr.
Qed.

Lemma AllocBytes_tracked_refused (count : Z)
    (file : string) (line : Z) (func : string) (s : State) :
  je_place (heap s) None (to_size_t (count + 4)) = None →
  AllocBytes cfg count file line func s = Crash WildAccess.
Proof.
  intros Hpl. unfold AllocBytes. cbn [CC_MEMORY_TRACKER MEM_CHECKTAG_SIZE cfg].
  unfold bind. rewrite (je_malloc_refused _ _ Hpl).
  by rewrite CheckOverflowAlloc_null.
Qed.

Hypothesis HB : BackingOk B.

(** A tracked allocation that returns has placed a block with room for the
    request and the tag, stamped it and recorded the unpadded size. *)
Lemma AllocBytes_tracked_inv (count p : Z)
    (file : string) (line : Z) (func : string) (s s1 : State) :
  0 ≤ count → count + 4 < SIZE_MOD →
  AllocBytes cfg count file line func s = Ok p s1 →
  ∃ d, je_place (heap s) None (count + 4) = Some (p, d)
       ∧ p ≠ NULL ∧ heap s !! p = None
       ∧ count + 4 ≤ Z.of_nat (length d)
       ∧ s1 = allocated p d count file line func s.
Proof.
  intros H0 Hmax Hrun.
  assert (Hsz : to_size_t (count + 4) = count + 4).
  { unfold to_size_t. apply Z.mod_small. lia. }
  destruct (je_place (heap s) None (to_size_t (count + 4))) as [[q d]|] eqn:Hpl.
  - destruct (HB _ _ _ _ _ Hpl) as (Hq & Hfresh & Hlen).
    rewrite Hsz in Hlen.
    rewrite (AllocBytes_tracked_placed _ _ _ _ _ _ _ Hpl Hq) in Hrun by lia.
    injection Hrun as <- <-. exists d. rewrite Hsz in Hpl. auto 10.
  - by rewrite (AllocBytes_tracked_refused _ _ _ _ _ Hpl) in Hrun.
Qed.

(** Round trip: a tracked allocation released at once passes the check. *)
Lemma AllocBytes_then_DeallocBytes (count p : Z)
    (file : string) (line : Z) (func : string) (s s1 : State) :
  0 ≤ count → count + 4 < SIZE_MOD →
  AllocBytes cfg count file line func s = Ok p s1 →
  DeallocBytes cfg p s1 = Ok tt (released p s1).
Proof.
  intros H0 Hmax Hrun.
  destruct (AllocBytes_tracked_inv _ _ _ _ _ _ _ H0 Hmax Hrun)
    as (d & _ & Hp & _ & Hlen & ->).
  unfold DeallocBytes. cbn [CC_MEMORY_TRACKER cfg].
  destruct (decide (p = NULL)); [contradiction|].
  rewrite (release_live p (stamped d)); [|apply lookup_insert_eq|done|].
  - by rewrite canary_ok_stamped by lia.
  - rewrite length_stamped by lia. lia.
Qed.

End Tracked.
End Allocation.

(** ** The reference backing allocator conforms *)

Lemma heap_top_bound (h : gmap Z (list byte)) :
  0 ≤ heap_top h ∧
  ∀ k d, h !! k = Some d → k + Z.of_nat (length d) ≤ heap_top h.
Proof.
  unfold heap_top.
  apply (map_fold_weak_ind
           (λ r (m : gmap Z (list byte)),
              0 ≤ r ∧ ∀ k d, m !! k = Some d → k + Z.of_nat (length d) ≤ r)).
  - split; [lia|]. intros k d Hk. by rewrite lookup_empty in Hk.
  - intros i x m r Hi [Hr IH]. split; [lia|].
    intros k d Hk. destruct (decide (i = k)) as [->|Hne].
    + rewrite lookup_insert_eq in Hk. injection Hk as ->. lia.
    + rewrite lookup_insert_ne in Hk by done. specialize (IH _ _ Hk). lia.
Qed.

Lemma je_size_class_ge (n : Z) : n ≤ je_size_class n.
Proof.
  unfold je_size_class. case_decide; [lia|].
  Z.div_mod_to_equations. lia.
Qed.

Lemma quantum_backing_ok : BackingOk quantum_backing.
Proof.
  intros h al sz p d Hpl. cbn [je_place quantum_backing] in Hpl.
  unfold quantum_place in Hpl.
  destruct (_ && _); [|discriminate]. injection Hpl as <- <-.
  set (a := match al with Some a => Z.max 16 a | None => 16 end).
  assert (Ha : 16 ≤ a) by (unfold a; destruct al; lia).
  destruct (heap_top_bound h) as [Htop Hall].
  assert (Hbase : heap_top h < (heap_top h / a + 1) * a).
  { pose proof (Z.div_mod (heap_top h) a ltac:(lia)).
    pose proof (Z.mod_pos_bound (heap_top h) a ltac:(lia)). lia. }
  split; [unfold NULL; lia|]. split.
  - destruct (h !! _) as [d|] eqn:Hd; [|reflexivity].
    specialize (Hall _ _ Hd). lia.
  - rewrite length_replicate. pose proof (je_size_class_ge sz). lia.
Qed.

(** ** The canary and writes by the application *)

Lemma drop_stamped (d : list byte) :
  (4 ≤ length d)%nat → drop (length d - 4) (stamped d) = tag_bytes.
Proof.
  intros H. unfold stamped. rewrite drop_splice_at by lia.
  replace (length d - 4 + length tag_bytes)%nat with (length d) by (simpl; lia).
  by rewrite drop_all, app_nil_r.
Qed.

Lemma splice_0 (d bs : list byte) : splice d 0 bs = bs ++ drop (length bs) d.
Proof. reflexivity. Qed.

Lemma canary_first_byte (b : byte) :
  bool_decide (decode_le (b :: drop 1 tag_bytes) = MEM_CHECKTAG)
  = bool_decide (b = x19).
Proof. destruct b; vm_compute; reflexivity. Qed.

(** Overrunning by one byte a block that has no slack replaces the first
    byte of the tag: the check then passes only for the byte 0x19. *)
Lemma canary_ok_overrun (d bs : list byte) (b : byte) :
  (4 ≤ length d)%nat → length d = (length bs + 4)%nat →
  canary_ok (splice (stamped d) 0 (bs ++ [b])) = bool_decide (b = x19).
Proof.
  intros H4 Hlen. unfold canary_ok.
  rewrite length_splice by (rewrite length_stamped, length_app by done; simpl; lia).
  rewrite length_stamped by done.
  replace (length d - 4)%nat with (length bs) by lia.
  rewrite splice_0, <- app_assoc, drop_app_length.
  rewrite length_app. cbn [length].
  replace (length bs + 1)%nat with ((length d - 4) + 1)%nat by lia.
  rewrite <- drop_drop, drop_stamped by done.
  rewrite <- canary_first_byte. reflexivity.
Qed.

(** C3 (amended): after a tracked [AllocBytes(count)] whose padded size does
    not wrap, the block holds at least [count + 4] bytes and its last four
    are the tag.  Writing any number of bytes that stays four below the end of
    the usable region (in particular exactly [count] bytes) keeps the next
    validation passing.  Writing [count + 1] bytes is caught by the next
    validation only when the usable region is exactly [count + 4] bytes long
    and the extra byte is not 0x19, the first byte of the tag. *)
Theorem canary_tight_bound (B : Backing) (cocos : bool) (st st1 : State)
    (count ptr : Z) (file : string) (line : Z) (func : string) :
  let cfg := {| CC_MEMORY_TRACKER := true; COCOS_MEMORY_TRACKER := cocos |} in
  BackingOk B →
  0 ≤ count →
  count + 4 < SIZE_MOD →
  AllocBytes cfg count file line func st = Ok ptr st1 →
  ∃ d, heap st1 !! ptr = Some d
    ∧ count + 4 ≤ Z.of_nat (length d)
    ∧ canary_ok d = true
    ∧ (∀ bs, Z.of_nat (length bs) + 4 ≤ Z.of_nat (length d) →
         let st2 := set_heap (<[ptr := splice d 0 bs]> (heap st1)) st1 in
         user_write ptr bs st1 = Ok tt st2 ∧
         CheckOverflowFree ptr st2 = Ok tt st2)
    ∧ (∀ bs b, Z.of_nat (length bs) = count →
         Z.of_nat (length d) = count + 4 →
         let st2 := set_heap (<[ptr := splice d 0 (bs ++ [b])]> (heap st1)) st1 in
         user_write ptr (bs ++ [b]) st1 = Ok tt st2 ∧
         CheckOverflowFree ptr st2 =
           if decide (b = x19) then Ok tt st2 else Crash AssertFailed).
Proof.
  intros cfg HB H0 Hmax Hrun.
  destruct (AllocBytes_tracked_inv cocos HB _ _ _ _ _ _ _ H0 Hmax Hrun)
    as (d & Hpl & Hp & Hfresh & Hlen & ->).
  assert (H4 : (4 ≤ length d)%nat) by lia.
  assert (Hd : heap (allocated ptr d count file line func st) !! ptr
               = Some (stamped d)) by apply lookup_insert_eq.
  exists (stamped d). rewrite length_stamped by done.
  split; [done|]. split; [done|]. split; [by apply canary_ok_stamped|]. split.
  - intros bs Hbs st2. split.
    + unfold user_write. rewrite (store_live _ _ _ _ _ Hd); [done|lia|].
      rewrite length_stamped by done. lia.
    + rewrite (CheckOverflowFree_live ptr (splice (stamped d) 0 bs));
        [|apply lookup_insert_eq|done|].
      * rewrite canary_ok_write_below by (rewrite length_stamped by done; lia).
        by rewrite canary_ok_stamped.
      * rewrite length_splice by (rewrite length_stamped by done; simpl; lia).
        rewrite length_stamped by done. lia.
  - intros bs b Hbs Hfull st2. split.
    + unfold user_write. rewrite (store_live _ _ _ _ _ Hd); [done|lia|].
      rewrite length_stamped, length_app by done. simpl. lia.
    + rewrite (CheckOverflowFree_live ptr (splice (stamped d) 0 (bs ++ [b])));
        [|apply lookup_insert_eq|done|].
      * rewrite canary_ok_overrun by lia.
        destruct (decide (b = x19)) as [->|Hb].
        -- by rewrite bool_decide_eq_true_2.
        -- by rewrite bool_decide_eq_false_2.
      * rewrite length_splice
          by (rewrite length_stamped, length_app by done; simpl; lia).
        rewrite length_stamped by done. lia.
Qed.

Lemma sample_state_run :
  AllocBytes (B:=quantum_backing) tracked 12 "main.cpp" 42 "main" init_state
  = Ok 16 sample_state.
Proof. vm_compute. reflexivity. Qed.

Lemma canary_tight_bound_witness :
  (BackingOk quantum_backing ∧ 0 ≤ 12 ∧ 12 + 4 < SIZE_MOD ∧
   AllocBytes (B:=quantum_backing) tracked 12 "main.cpp" 42 "main" init_state
   = Ok 16 sample_state) ∧
  ∃ d, heap sample_state !! 16 = Some d
    ∧ 12 + 4 ≤ Z.of_nat (length d)
    ∧ canary_ok d = true
    ∧ (∀ bs, Z.of_nat (length bs) + 4 ≤ Z.of_nat (length d) →
         let st2 := set_heap (<[16 := splice d 0 bs]> (heap sample_state)) sample_state in
         user_write 16 bs sample_state = Ok tt st2 ∧
         CheckOverflowFree 16 st2 = Ok tt st2)
    ∧ (∀ bs b, Z.of_nat (length bs) = 12 →
         Z.of_nat (length d) = 12 + 4 →
         let st2 := set_heap (<[16 := splice d 0 (bs ++ [b])]> (heap sample_state)) sample_state in
         user_write 16 (bs ++ [b]) sample_state = Ok tt st2 ∧
         CheckOverflowFree 16 st2 =
           if decide (b = x19) then Ok tt st2 else Crash AssertFailed).
Proof.
  assert (H1 : 0 ≤ 12) by lia.
  assert (H2 : 12 + 4 < SIZE_MOD) by (vm_compute; reflexivity).
  assert (H3 : AllocBytes (B:=quantum_backing) tracked 12 "main.cpp" 42 "main" init_state
               = Ok 16 sample_state) by (vm_compute; reflexivity).
  split; [auto using quantum_backing_ok|].
  exact (canary_tight_bound quantum_backing false init_state sample_state 12 16
           "main.cpp" 42 "main" quantum_backing_ok H1 H2 H3).
Defined.

(** C3, as stated, fails: 100 bytes are requested, the backing allocator
    hands out its 112-byte size class for the padded 104, the tag sits at
    offsets 108..111, and the 101 bytes written do not reach it; the
    validation in [DeallocBytes] passes and the run ends without a fault. *)
Lemma overrun_by_one_undetected :
  fault_of overrun_run = None ∧ fault_of overrun_run ≠ Some AssertFailed.
Proof. split; [vm_compute; reflexivity | vm_compute; discriminate]. Qed.

(** ** Reallocation: resizing a live block *)

Lemma bind_ok {A C} (m : M A) (k : A → M C) (s s' : State) (a : A) :
  m s = Ok a s' → bind m k s = k a s'.
Proof. intros H. unfold bind. by rewrite H. Qed.




(** ** Aligned allocation *)

(** In the tracked configuration the body of [AllocBytesAligned] is the bare
    call to the backing allocator, for the padded size. *)
Lemma AllocBytesAligned_tracked_raw (B : Backing) (align count : Z)
    (file : string) (line : Z) (func : string) (st : State) :
  AllocBytesAligned tracked align count file line func st
  = je_aligned_alloc align (to_size_t (count + 4)) st.
Proof.
  unfold AllocBytesAligned, bind. cbn [COCOS_MEMORY_TRACKER MEM_CHECKTAG_SIZE
    CC_MEMORY_TRACKER tracked].
  by destruct (je_aligned_alloc _ _ st).
Qed.

(** C1 (the code departs from it): with [CC_MEMORY_TRACKER] defined,
    [AllocBytesAligned(16, 100)] returns the block at 16 with its 112 usable
    bytes exactly as the backing allocator left them (no canary) and with no
    ledger record, so that releasing it trips the assertion;
    [AllocBytes(100)] from the same state stamps the tag, records the size
    100, and its block is released without a fault. *)
Theorem AllocBytesAligned_not_instrumented :
  aligned_run = Ok 16 aligned_state
  ∧ heap aligned_state !! 16 = Some (replicate 112 xa5)
  ∧ ledger aligned_state !! 16 = None
  ∧ DeallocBytes tracked 16 aligned_state = Crash AssertFailed
  ∧ plain_run = Ok 16 plain_state
  ∧ heap plain_state !! 16 = Some (replicate 108 xa5 ++ tag_bytes)
  ∧ rec_size <$> ledger plain_state !! 16 = Some 100
  ∧ fault_of (DeallocBytes tracked 16 plain_state) = None.
Proof. repeat split; vm_compute; reflexivity. Qed.

(** ** Allocation failure *)

Section Refusal.
Context {B : Backing}.
Variables (file : string) (line : Z) (func : string).

(** Without tracking, a refusal of the backing allocator is passed on as a
    null result and the state is unchanged. *)
Lemma AllocBytes_untracked_refused (count : Z) (s : State) :
  je_place (heap s) None (to_size_t count) = None →
  AllocBytes untracked count file line func s = Ok NULL s.
Proof.
  intros Hpl. unfold AllocBytes. cbn [CC_MEMORY_TRACKER MEM_CHECKTAG_SIZE untracked].
  rewrite Z.add_0_r. by rewrite (bind_ok _ _ _ _ _ (je_malloc_refused _ _ Hpl)).
Qed.

(** With tracking, every allocating branch of [ReallocBytes] stamps (and
    copies) through the null pointer when the backing allocator refuses. *)
Lemma ReallocBytes_tracked_refused (cocos : bool) (ptr count : Z) (s : State) :
  count ≠ 0 →
  je_place (heap s) None (to_size_t (count + 4)) = None →
  ReallocBytes {| CC_MEMORY_TRACKER := true; COCOS_MEMORY_TRACKER := cocos |}
    ptr count file line func s = Crash WildAccess.
Proof.
  intros Hc Hpl. unfold ReallocBytes. cbn [CC_MEMORY_TRACKER MEM_CHECKTAG_SIZE].
  destruct (decide (ptr ≠ NULL)) as [Hp|Hp].
  - destruct (decide (count = 0)); [contradiction|].
    unfold bind at 1. unfold je_malloc_usable_size.
    destruct (decide (ptr = NULL)); [contradiction|].
    destruct (heap s !! ptr) as [d|] eqn:Hd; [|reflexivity].
    rewrite (bind_ok _ _ _ _ _ (je_malloc_refused _ _ Hpl)).
    unfold bind at 1. destruct (memcpy NULL ptr _ s) as [[] s1|f] eqn:Hcpy.
    + unfold bind. by rewrite CheckOverflowAlloc_null.
    + unfold memcpy, bind, load, store in Hcpy. rewrite Hd in Hcpy.
      repeat (case_decide || case_match); congruence.
  - destruct (decide (count ≠ 0)); [|contradiction].
    rewrite (bind_ok _ _ _ _ _ (je_malloc_refused _ _ Hpl)).
    unfold bind. by rewrite CheckOverflowAlloc_null.
Qed.

End Refusal.

(** C4 (the code departs from it): the reference allocator refuses a
    request of 2^63 bytes.  Without tracking the facade returns null and the
    state is unchanged.  With tracking, [AllocBytes] and [ReallocBytes] (from
    a null pointer and from the live block at 16) do not return: they write
    the tag, and copy, through the null pointer. *)
Theorem tracked_allocation_failure_faults :
  je_place (Backing:=quantum_backing) (heap init_state) None (to_size_t (HUGE + 4)) = None
  ∧ AllocBytes (B:=quantum_backing) untracked HUGE "a.cpp" 1 "f" init_state
    = Ok NULL init_state
  ∧ ReallocBytes (B:=quantum_backing) untracked NULL HUGE "a.cpp" 1 "f" init_state
    = Ok NULL init_state
  ∧ AllocBytes (B:=quantum_backing) tracked HUGE "a.cpp" 1 "f" init_state
    = Crash WildAccess
  ∧ ReallocBytes (B:=quantum_backing) tracked NULL HUGE "a.cpp" 1 "f" init_state
    = Crash WildAccess
  ∧ ReallocBytes (B:=quantum_backing) tracked 16 HUGE "a.cpp" 1 "f" sample_state
    = Crash WildAccess.
Proof. repeat split; vm_compute; reflexivity. Qed.

(** ** Statistics dump *)

(** C5 (the code departs from it): with a capacity of 1 the callback
    returns before writing anything, so the caller's byte is left as it was
    and the buffer is not terminated; so it is for any capacity when the
    backing allocator emits no fragment; with a capacity of 0 the length is
    clamped to -1 and the copy runs past the buffer.  A capacity of 4 shows
    the intended truncation. *)
Theorem DumpStats_small_capacity :
  DumpStats [[x41; x42]; [x43; x44; x45]] [xff] 1 = Some [xff]
  ∧ DumpStats [] [xff; xff; xff; xff] 4 = Some [xff; xff; xff; xff]
  ∧ DumpStats [[x41; x42]; [x43; x44; x45]] [] 0 = None
  ∧ DumpStats [[x41; x42]; [x43; x44; x45]] [xff; xff; xff; xff] 4
    = Some [x41; x42; x43; x00].
Proof. repeat split; vm_compute; reflexivity. Qed.

(** ** The ledger over sequences of calls *)

Lemma bind_inv {A C} (m : M A) (k : A → M C) (s s' : State) (c : C) :
  bind m k s = Ok c s' → ∃ a s1, m s = Ok a s1 ∧ k a s1 = Ok c s'.
Proof. unfold bind. destruct (m s) as [a s1|]; [eauto | discriminate]. Qed.

Lemma store_inv (p off : Z) (bs : list byte) (s s' : State) :
  store p off bs s = Ok tt s' →
  ∃ d, heap s !! p = Some d ∧ 0 ≤ off ∧
       s' = set_heap (<[p := splice d (Z.to_nat off) bs]> (heap s)) s.
Proof.
  unfold store. destruct (heap s !! p) as [d|]; [|discriminate].
  case_decide; [|discriminate]. intros [= <-]. exists d. intuition.
Qed.

Lemma CheckOverflowAlloc_inv (p : Z) (s s' : State) :
  CheckOverflowAlloc p s = Ok tt s' →
  ∃ d, heap s !! p = Some d ∧ s' = set_heap (<[p := stamped d]> (heap s)) s.
Proof.
  intros H. apply bind_inv in H as (size & s1 & Hu & Hst).
  apply store_inv in Hst as (d & Hd & Hoff & ->).
  unfold je_malloc_usable_size in Hu.
  destruct (decide (p = NULL)).
  - injection Hu as <- <-. lia.
  - destruct (heap s !! p) as [d0|] eqn:Hd0; [|discriminate].
    injection Hu as <- <-. rewrite Hd0 in Hd. injection Hd as <-.
    exists d0. split; [done|]. unfold stamped.
    by replace (Z.to_nat (Z.of_nat (length d0) - 4)) with (length d0 - 4)%nat by lia.
Qed.

Lemma CheckOverflowFree_inv (p : Z) (s s' : State) :
  CheckOverflowFree p s = Ok tt s' → s' = s ∧ is_Some (heap s !! p).
Proof.
  intros H. apply bind_inv in H as (size & s1 & Hu & H).
  apply bind_inv in H as (tag & s2 & Hl & H).
  unfold je_malloc_usable_size in Hu. unfold load in Hl.
  unfold CCASSERT, ret, crash in H.
  destruct (decide (p = NULL)).
  - injection Hu as <- <-. destruct (heap s !! p); [|discriminate].
    case_decide; [lia | discriminate].
  - destruct (heap s !! p) as [d|] eqn:Hd; [|discriminate].
    injection Hu as <- <-. rewrite Hd in Hl. case_decide; [|discriminate].
    injection Hl as <- <-. case_match; [|discriminate].
    injection H as <-. eauto.
Qed.

Lemma je_free_inv (p : Z) (s s' : State) :
  je_free p s = Ok tt s' → p ≠ NULL →
  s' = set_heap (delete p (heap s)) s.
Proof.
  unfold je_free. intros H Hp. destruct (decide (p = NULL)); [contradiction|].
  destruct (heap s !! p); [|discriminate]. by injection H as <-.
Qed.

Lemma memcpy_inv (dst src n : Z) (s s' : State) :
  memcpy dst src n s = Ok tt s' →
  ∃ d', is_Some (heap s !! dst) ∧ s' = set_heap (<[dst := d']> (heap s)) s.
Proof.
  intros H. apply bind_inv in H as (bs & s1 & Hl & Hst).
  assert (s1 = s) as ->.
  { unfold load in Hl. destruct (heap s !! src); [|discriminate].
    case_decide; [|discriminate]. by injection Hl as <- <-. }
  apply store_inv in Hst as (d & Hd & _ & ->). eauto.
Qed.

Section Ledger.
Context {B : Backing}.
Hypothesis HB : BackingOk B.
Variable cocos : bool.
Let cfg := {| CC_MEMORY_TRACKER := true; COCOS_MEMORY_TRACKER := cocos |}.

(** The instrumented allocation path, when it returns. *)
Lemma alloc_path_inv (sz count p : Z) (file : string) (line : Z) (func : string)
    (s s' : State) :
  (let* ptr := je_malloc sz in
   CheckOverflowAlloc ptr ;;; RecordAlloc ptr count file line func ;;; ret ptr) s
  = Ok p s' →
  ∃ d, p ≠ NULL ∧ heap s !! p = None
       ∧ s' = allocated p d count file line func s.
Proof.
  intros H. apply bind_inv in H as (q & s1 & Hm & H).
  apply bind_inv in H as ([] & s2 & Hc & H).
  apply bind_inv in H as ([] & s3 & Hr & H).
  injection H as <- <-. injection Hr as <-.
  unfold je_malloc, je_alloc_at in Hm.
  destruct (je_place (heap s) None sz) as [[q' d]|] eqn:Hpl.
  - injection Hm as <- <-. destruct (HB _ _ _ _ _ Hpl) as (Hq & Hfresh & _).
    apply CheckOverflowAlloc_inv in Hc as (d0 & Hd0 & ->).
    cbn in Hd0. rewrite lookup_insert_eq in Hd0. injection Hd0 as <-.
    exists d. split; [done|]. split; [done|].
    unfold allocated, set_ledger, set_heap. cbn. by rewrite insert_insert_eq.
  - injection Hm as <- <-. by rewrite CheckOverflowAlloc_null in Hc.
Qed.

Lemma release_path_inv (p : Z) (s s' : State) :
  (CheckOverflowFree p ;;; RecordFree p ;;; je_free p) s = Ok tt s' →
  p ≠ NULL → s' = released p s ∧ is_Some (heap s !! p).
Proof.
  intros H Hp. apply bind_inv in H as ([] & s1 & Hc & H).
  apply bind_inv in H as ([] & s2 & Hr & H).
  apply CheckOverflowFree_inv in Hc as [-> Hlive].
  injection Hr as <-. by apply je_free_inv in H as ->.
Qed.

Lemma ledger_agrees_allocated (p : Z) (d : list byte) (count : Z)
    (file : string) (line : Z) (func : string) (s : State) (live : gmap Z Z) :
  ledger_agrees s live →
  ledger_agrees (allocated p d count file line func s) (<[p := count]> live).
Proof.
  intros [Hl Hh]. unfold ledger_agrees, allocated. cbn.
  by rewrite fmap_insert, !dom_insert_L, Hl, Hh.
Qed.

Lemma ledger_agrees_released (p : Z) (s : State) (live : gmap Z Z) :
  ledger_agrees s live → ledger_agrees (released p s) (delete p live).
Proof.
  intros [Hl Hh]. unfold ledger_agrees, released. cbn.
  by rewrite fmap_delete, !dom_delete_L, Hl, Hh.
Qed.

(** Every call other than [AllocBytesAligned] keeps the ledger in step with
    the live pointers, whenever it returns. *)
Lemma exec_ledger_agrees (op : Op) (r : Z) (s s' : State) (live : gmap Z Z) :
  is_aligned_op op = false →
  ledger_agrees s live →
  exec cfg op s = Ok r s' →
  ledger_agrees s' (live_after op r live).
Proof.
  intros Hop Hag Hrun. destruct op as [count|align count|ptr count|ptr];
    [| discriminate | |]; cbn [exec live_after] in *.
  - apply alloc_path_inv in Hrun as (d & Hr & _ & ->).
    destruct (decide (r = NULL)); [contradiction|].
    by apply ledger_agrees_allocated.
  - unfold ReallocBytes in Hrun. cbn [CC_MEMORY_TRACKER MEM_CHECKTAG_SIZE cfg] in Hrun.
    destruct (decide (ptr ≠ NULL)) as [Hp|Hp].
    + destruct (decide (ptr = NULL)); [contradiction|].
      destruct (decide (count = 0)) as [->|Hc].
      * apply bind_inv in Hrun as ([] & s1 & Hc1 & H).
        apply bind_inv in H as ([] & s2 & Hr1 & H).
        apply bind_inv in H as ([] & s3 & Hf & H).
        injection H as <- <-.
        apply CheckOverflowFree_inv in Hc1 as [-> _]. injection Hr1 as <-.
        apply je_free_inv in Hf as ->; [|done].
        exact (ledger_agrees_released ptr s live Hag).
      * apply bind_inv in Hrun as (usable & s0 & Hu & H).
        assert (s0 = s ∧ is_Some (heap s !! ptr)) as [-> Hlive].
        { unfold je_malloc_usable_size in Hu.
          destruct (decide (ptr = NULL)); [contradiction|].
          destruct (heap s !! ptr); [|discriminate].
          injection Hu as <- <-. eauto. }
        apply bind_inv in H as (nptr & s1 & Hm & H).
        apply bind_inv in H as ([] & s2 & Hcp & H).
        apply bind_inv in H as ([] & s3 & Hca & H).
        apply bind_inv in H as ([] & s4 & Hra & H).
        apply bind_inv in H as ([] & s5 & Hcf & H).
        apply bind_inv in H as ([] & s6 & Hrf & H).
        apply bind_inv in H as ([] & s7 & Hf & H).
        injection H as <- <-.
        unfold je_malloc, je_alloc_at in Hm.
        destruct (je_place (heap s) None _) as [[q nd]|] eqn:Hpl.
        -- injection Hm as <- <-.
           destruct (HB _ _ _ _ _ Hpl) as (Hq & Hfresh & _).
           apply memcpy_inv in Hcp as (d1 & _ & ->).
           apply CheckOverflowAlloc_inv in Hca as (d2 & _ & ->).
           injection Hra as <-.
           apply CheckOverflowFree_inv in Hcf as [-> _]. injection Hrf as <-.
           apply je_free_inv in Hf as ->; [|done].
           destruct (decide (q = NULL)); [contradiction|].
           assert (Hne : q ≠ ptr).
           { intros ->. rewrite Hfresh in Hlive. by destruct Hlive. }
           destruct Hag as [Hl Hh]. unfold ledger_agrees. cbn.
           rewrite fmap_delete, fmap_insert, Hl.
           rewrite !dom_delete_L, !dom_insert_L, Hh.
           split; [by rewrite delete_insert_ne|].
           rewrite dom_delete_L. apply set_eq. intros x.
           rewrite !elem_of_difference, !elem_of_union, elem_of_difference,
             !elem_of_singleton.
           intuition congruence.
        -- injection Hm as <- <-.
           apply memcpy_inv in Hcp as (d1 & _ & ->).
           by rewrite CheckOverflowAlloc_null in Hca.
    + assert (ptr = NULL) as -> by (destruct (decide (ptr = NULL)); tauto).
      destruct (decide (NULL = NULL)); [|contradiction].
      destruct (decide (count ≠ 0)) as [Hc|Hc].
      * apply alloc_path_inv in Hrun as (d & Hr & _ & ->).
        destruct (decide (count = 0 ∨ r = NULL)); [tauto|].
        by apply ledger_agrees_allocated.
      * injection Hrun as <- <-.
        destruct (decide (count = 0 ∨ NULL = NULL)); [done | tauto].
  - apply bind_inv in Hrun as ([] & s1 & Hd & H). injection H as <- <-.
    unfold DeallocBytes in Hd. cbn [CC_MEMORY_TRACKER cfg] in Hd.
    destruct (decide (ptr = NULL)).
    + by injection Hd as <-.
    + apply release_path_inv in Hd as [-> _]; [|done].
      by apply ledger_agrees_released.
Qed.

(** The ledger property of the spec, for every sequence of [AllocBytes],
    [ReallocBytes] and [DeallocBytes] calls that runs to its end. *)
Lemma run_ledger_agrees (ops : list Op) (live live' : gmap Z Z) (s s' : State) :
  forallb (λ op, negb (is_aligned_op op)) ops = true →
  ledger_agrees s live →
  run cfg ops live s = Ok live' s' →
  ledger_agrees s' live'.
Proof.
  revert live s. induction ops as [|op ops IH]; intros live s Hops Hag Hrun.
  - by injection Hrun as <- <-.
  - cbn [forallb] in Hops. apply andb_true_iff in Hops as [Hop Hops].
    cbn [run] in Hrun. apply bind_inv in Hrun as (r & s1 & Hex & Hrun).
    apply (IH _ _ Hops) in Hrun; [done|].
    apply (exec_ledger_agrees op r s); [|done..].
    by destruct (is_aligned_op op).
Qed.

End Ledger.

(** C2 (the code departs from it): after [AllocBytes(12)],
    [AllocBytesAligned(64, 100)] and the release of the first block, with
    tracking enabled, the pointer 64 is live (requested size 100, and a block
    of the backing allocator) but the ledger is empty: it does not hold
    exactly the live pointers. *)
Theorem ledger_misses_aligned_allocation :
  ∃ live st,
    mixed_run = Ok live st
    ∧ live !! 64 = Some 100
    ∧ is_Some (heap st !! 64)
    ∧ ledger st !! 64 = None
    ∧ ¬ ledger_agrees st live.
Proof.
  destruct mixed_run as [live st|f] eqn:Hrun; [|by vm_compute in Hrun].
  exists live, st.
  assert (Hlive : live !! 64 = Some 100).
  { vm_compute in Hrun. injection Hrun as <- _. reflexivity. }
  assert (Hled : ledger st !! 64 = None).
  { vm_compute in Hrun. injection Hrun as _ <-. reflexivity. }
  assert (Hheap : is_Some (heap st !! 64)).
  { vm_compute in Hrun. injection Hrun as _ <-. eexists. reflexivity. }
  repeat split; try done.
  intros [Hl _]. apply (f_equal (λ m, m !! 64)) in Hl.
  rewrite lookup_fmap, Hled, Hlive in Hl. discriminate.
Qed.

(** ** Statistics dump: where the bound and the terminator hold *)

Lemma strlen_cstr (msg : list byte) : strlen msg = Z.of_nat (length (cstr msg)).
Proof.
  induction msg as [|b msg IH]; [reflexivity|].
  cbn [strlen cstr]. case_decide; cbn [length]; lia.
Qed.

Lemma cstr_prefix (msg : list byte) : take (length (cstr msg)) msg = cstr msg.
Proof.
  induction msg as [|b msg IH]; [reflexivity|].
  cbn [cstr]. case_decide; [reflexivity|]. cbn [length take]. by rewrite IH.
Qed.

Lemma cstr_length_le (msg : list byte) : (length (cstr msg) ≤ length msg)%nat.
Proof.
  induction msg as [|b msg IH]; [reflexivity|].
  cbn [cstr]. case_decide; cbn [length]; lia.
Qed.

(** Copying at most [strlen(msg)] bytes out of [msg] copies characters only. *)
Lemma take_cstr (msg : list byte) (n : nat) :
  (n ≤ length (cstr msg))%nat → take n (msg ++ [x00]) = take n (cstr msg).
Proof.
  intros Hn. pose proof (cstr_length_le msg).
  rewrite take_app_le by lia.
  transitivity (take n (take (length (cstr msg)) msg)).
  - rewrite take_take. f_equal. lia.
  - by rewrite cstr_prefix.
Qed.

(** One call of the callback with room left: the characters that fit are
    copied at the cursor, a terminator is written after them, and the cursor
    advances over the characters only. *)
Lemma JeStatsPrint_copies (b sz : Z) (msg dest : list byte) :
  0 ≤ b → 0 < sz < 2 ^ 31 → b + sz + 1 ≤ Z.of_nat (length dest) →
  strlen msg < 2 ^ 31 →
  let n := Z.min (strlen msg) sz in
  JeStatsPrint {| jd_buf := b; jd_size := sz |} msg dest =
    Some ({| jd_buf := b + n; jd_size := sz - n |},
          take (Z.to_nat b) dest ++ take (Z.to_nat n) (cstr msg)
            ++ x00 :: drop (Z.to_nat (b + n + 1)) dest).
Proof.
  intros Hb Hsz Hfit Hmsg n.
  pose proof (strlen_cstr msg) as Hlen. pose proof (cstr_length_le msg) as Hle.
  unfold JeStatsPrint. cbn [jd_buf jd_size].
  destruct (decide (sz = 0)); [lia|].
  rewrite (to_int_id (strlen msg)) by lia.
  replace (if decide (strlen msg > sz) then sz else strlen msg) with n
    by (unfold n; case_decide; lia).
  assert (Hn : 0 ≤ n ≤ sz ∧ n ≤ strlen msg) by (unfold n; lia).
  replace (to_size_t n) with n by (unfold to_size_t, SIZE_MOD; rewrite Z.mod_small; lia).
  rewrite (to_int_id (sz - n)) by lia.
  rewrite take_cstr by lia.
  assert (HX : length (take (Z.to_nat n) (cstr msg)) = Z.to_nat n)
    by (rewrite length_take; lia).
  destruct (decide _) as [_|Hno]; [|lia].
  rewrite length_splice by (rewrite HX; lia).
  destruct (decide _) as [_|Hno]; [|lia].
  f_equal. f_equal. unfold splice. rewrite HX.
  rewrite app_assoc.
  rewrite insert_app_r_alt by (rewrite length_app, length_take, HX; lia).
  rewrite length_app, length_take, HX.
  replace (Z.to_nat (b + n) - (Z.to_nat b `min` length dest + Z.to_nat n))%nat
    with 0%nat by lia.
  destruct (lookup_lt_is_Some_2 dest (Z.to_nat b + Z.to_nat n) ltac:(lia)) as [y Hy].
  rewrite (drop_S _ _ _ Hy). cbn [insert list_insert].
  rewrite <- app_assoc. do 4 f_equal. lia.
Qed.

(** The loop of callbacks from a cursor [b] with [sz] bytes of room, in a
    buffer already terminated at the cursor or about to be. *)
Lemma stats_print_loop (frags : list (list byte)) (b sz : Z) (dest : list byte) :
  0 ≤ b → 0 ≤ sz < 2 ^ 31 → b + sz + 1 = Z.of_nat (length dest) →
  Forall (λ msg, strlen msg < 2 ^ 31) frags →
  (0 < sz ∧ frags ≠ []) ∨ dest !! Z.to_nat b = Some x00 →
  let text := take (Z.to_nat sz) (concat (cstr <$> frags)) in
  snd <$> je_malloc_stats_print frags {| jd_buf := b; jd_size := sz |} dest
  = Some (take (Z.to_nat b) dest ++ text
            ++ x00 :: drop (Z.to_nat b + length text + 1) dest).
Proof.
  revert b sz dest. induction frags as [|msg frags IH];
    intros b sz dest Hb Hsz Hfit Hall Hterm text.
  - destruct Hterm as [[_ ?]|Hterm]; [done|].
    assert (text = []) as -> by (unfold text; cbn; apply take_nil).
    cbn. f_equal. rewrite Nat.add_0_r, Nat.add_1_r.
    symmetry. by apply take_drop_middle.
  - apply Forall_cons in Hall as [Hmsg Hall].
    cbn [je_malloc_stats_print].
    destruct (decide (sz = 0)) as [->|Hpos].
    + destruct Hterm as [[? _]|Hterm]; [lia|].
      unfold JeStatsPrint at 1. cbn [jd_size].
      destruct (decide (0 = 0)); [|done].
      rewrite (IH b 0 dest) by (auto; lia).
      unfold text. change (Z.to_nat 0) with 0%nat. by rewrite !take_0.
    + pose proof (strlen_cstr msg) as Hlen.
      rewrite (JeStatsPrint_copies b sz msg dest) by lia.
      set (n := Z.min (strlen msg) sz).
      set (dest1 := take (Z.to_nat b) dest ++ take (Z.to_nat n) (cstr msg)
                      ++ x00 :: drop (Z.to_nat (b + n + 1)) dest).
      assert (Hn : 0 ≤ n ≤ sz ∧ n ≤ strlen msg) by (unfold n; lia).
      assert (Hpre : length (take (Z.to_nat b) dest ++ take (Z.to_nat n) (cstr msg))
                     = Z.to_nat (b + n)).
      { rewrite length_app, !length_take. lia. }
      assert (Hlen1 : length dest1 = length dest).
      { unfold dest1. rewrite app_assoc, length_app, Hpre. cbn [length].
        rewrite length_drop. lia. }
      assert (Hterm1 : dest1 !! Z.to_nat (b + n) = Some x00).
      { unfold dest1. rewrite app_assoc. rewrite lookup_app_r by lia.
        rewrite Hpre, Nat.sub_diag. reflexivity. }
      rewrite (IH (b + n) (sz - n) dest1) by (auto; lia).
      f_equal. subst text.
      set (rest := take (Z.to_nat (sz - n)) (concat (cstr <$> frags))).
      assert (Htext : take (Z.to_nat sz) (concat (cstr <$> msg :: frags))
                      = take (Z.to_nat n) (cstr msg) ++ rest).
      { rewrite fmap_cons, concat_cons, take_app. unfold rest.
        destruct (decide (strlen msg ≤ sz)).
        - replace n with (strlen msg) by (unfold n; lia).
          rewrite (take_ge (cstr msg) (Z.to_nat sz)) by lia.
          rewrite (take_ge (cstr msg) (Z.to_nat (strlen msg))) by lia.
          do 2 f_equal. lia.
        - replace n with sz by (unfold n; lia).
          replace (Z.to_nat sz - length (cstr msg))%nat with 0%nat by lia.
          replace (Z.to_nat (sz - sz)) with 0%nat by lia.
          reflexivity. }
      rewrite Htext.
      assert (Htk : take (Z.to_nat (b + n)) dest1
                    = take (Z.to_nat b) dest ++ take (Z.to_nat n) (cstr msg)).
      { unfold dest1. rewrite app_assoc, <- Hpre. apply take_app_length. }
      rewrite Htk, <- !app_assoc. do 3 f_equal.
      rewrite length_app, length_take.
      assert (Hdrop : ∀ k, (Z.to_nat (b + n) + 1 ≤ k)%nat → drop k dest1 = drop k dest).
      { intros k Hk. unfold dest1. rewrite app_assoc.
        rewrite drop_app_ge by lia. rewrite Hpre.
        replace (k - Z.to_nat (b + n))%nat with (S (k - Z.to_nat (b + n) - 1)) by lia.
        cbn [drop]. rewrite drop_drop. f_equal. lia. }
      rewrite Hdrop by lia. do 2 f_equal. lia.
Qed.

(** For a capacity of at least 2 and a report of at least one fragment,
    [DumpStats] stays inside the buffer: the result is the text that fits,
    one terminator, and the caller's bytes beyond it left as they were. *)
Lemma DumpStats_truncates (frags : list (list byte)) (dest : list byte) (bufsize : Z) :
  2 ≤ bufsize < 2 ^ 31 →
  Z.of_nat (length dest) = bufsize →
  frags ≠ [] →
  Forall (λ msg, strlen msg < 2 ^ 31) frags →
  let text := report_text frags bufsize in
  DumpStats frags dest bufsize
    = Some (text ++ x00 :: drop (length text + 1) dest)
  ∧ Z.of_nat (length text) + 1 ≤ bufsize
  ∧ length (text ++ x00 :: drop (length text + 1) dest) = length dest.
Proof.
  intros Hcap Hlen Hne Hall text.
  assert (Htl : (length text ≤ Z.to_nat (bufsize - 1))%nat).
  { unfold text, report_text. rewrite length_take. lia. }
  split; [|split].
  - unfold DumpStats. rewrite (to_int_id (bufsize - 1)) by lia.
    rewrite (stats_print_loop frags 0 (bufsize - 1) dest);
      [reflexivity | lia | lia | lia | done | left; split; [lia | done]].
  - lia.
  - rewrite length_app. cbn [length]. rewrite length_drop. lia.
Qed.


(** * Further properties of the facade *)

(** ** Allocation and release compose *)

(** X1: with tracking enabled, releasing a block right after [AllocBytes]
    returned it passes the canary check, and the backing allocator's blocks
    are again exactly those from before the allocation; the ledger has no
    record for the pointer. *)
Theorem alloc_dealloc_round_trip (B : Backing) (cocos : bool) (s s1 : State)
    (count p : Z) (file : string) (line : Z) (func : string) :
  let cfg := {| CC_MEMORY_TRACKER := true; COCOS_MEMORY_TRACKER := cocos |} in
  BackingOk B →
  0 ≤ count →
  count + 4 < SIZE_MOD →
  AllocBytes cfg count file line func s = Ok p s1 →
  ∃ s2, DeallocBytes cfg p s1 = Ok tt s2
        ∧ heap s2 = heap s
        ∧ ledger s2 = delete p (ledger s).
Proof.
  intros cfg HB H0 Hmax Hrun.
  pose proof (AllocBytes_then_DeallocBytes cocos HB _ _ _ _ _ _ _ H0 Hmax Hrun) as Hd.
  destruct (AllocBytes_tracked_inv cocos HB _ _ _ _ _ _ _ H0 Hmax Hrun)
    as (d & _ & _ & Hfresh & _ & ->).
  eexists. split; [exact Hd|]. unfold released, allocated. cbn. split.
  - rewrite delete_insert_eq. by apply delete_id.
  - apply delete_insert_eq.
Qed.

Lemma alloc_dealloc_round_trip_witness :
  (BackingOk quantum_backing ∧ 0 ≤ 12 ∧ 12 + 4 < SIZE_MOD ∧
   AllocBytes (B:=quantum_backing) tracked 12 "main.cpp" 42 "main" init_state
   = Ok 16 sample_state) ∧
  ∃ s2, DeallocBytes tracked 16 sample_state = Ok tt s2
        ∧ heap s2 = heap init_state
        ∧ ledger s2 = delete 16 (ledger init_state).
Proof.
  assert (H1 : 0 ≤ 12) by lia.
  assert (H2 : 12 + 4 < SIZE_MOD) by (vm_compute; reflexivity).
  assert (H3 : AllocBytes (B:=quantum_backing) tracked 12 "main.cpp" 42 "main" init_state
               = Ok 16 sample_state) by (vm_compute; reflexivity).
  split; [auto using quantum_backing_ok|].
  exact (alloc_dealloc_round_trip quantum_backing false init_state sample_state
           12 16 "main.cpp" 42 "main" quantum_backing_ok H1 H2 H3).
Defined.

(** X2: a tracked [AllocBytes] that returns never returns null or the
    address of a block that was live; it records the requested size and the
    call site under the returned address, and leaves every other block and
    every other ledger record as it was. *)
Theorem AllocBytes_frame (B : Backing) (cocos : bool) (s s1 : State)
    (count p : Z) (file : string) (line : Z) (func : string) :
  let cfg := {| CC_MEMORY_TRACKER := true; COCOS_MEMORY_TRACKER := cocos |} in
  BackingOk B →
  AllocBytes cfg count file line func s = Ok p s1 →
  p ≠ NULL
  ∧ heap s !! p = None
  ∧ is_Some (heap s1 !! p)
  ∧ ledger s1 !! p = Some {| rec_size := count; rec_file := file;
                             rec_line := line; rec_func := func |}
  ∧ ∀ q, q ≠ p → heap s1 !! q = heap s !! q ∧ ledger s1 !! q = ledger s !! q.
Proof.
  intros cfg HB Hrun.
  apply (alloc_path_inv HB) in Hrun as (d & Hp & Hfresh & ->).
  unfold allocated. cbn. repeat split; try done.
  - rewrite lookup_insert_eq. eauto.
  - apply lookup_insert_eq.
  - by rewrite lookup_insert_ne.
  - by rewrite lookup_insert_ne.
Qed.

Lemma AllocBytes_frame_witness :
  (BackingOk quantum_backing ∧
   AllocBytes (B:=quantum_backing) tracked 12 "main.cpp" 42 "main" init_state
   = Ok 16 sample_state) ∧
  16 ≠ NULL
  ∧ heap init_state !! 16 = None
  ∧ is_Some (heap sample_state !! 16)
  ∧ ledger sample_state !! 16 = Some {| rec_size := 12; rec_file := "main.cpp";
                                         rec_line := 42; rec_func := "main" |}
  ∧ ∀ q, q ≠ 16 → heap sample_state !! q = heap init_state !! q
                  ∧ ledger sample_state !! q = ledger init_state !! q.
Proof.
  assert (H1 : AllocBytes (B:=quantum_backing) tracked 12 "main.cpp" 42 "main" init_state
               = Ok 16 sample_state) by (vm_compute; reflexivity).
  split; [auto using quantum_backing_ok|].
  exact (AllocBytes_frame quantum_backing false init_state sample_state
           12 16 "main.cpp" 42 "main" quantum_backing_ok H1).
Defined.

(** ** The ledger over runs *)

(** X3: with tracking enabled, over every sequence of [AllocBytes],
    [ReallocBytes] and [DeallocBytes] calls (arbitrary pointers and sizes)
    that runs to its end, the ledger records exactly the pointers that are
    live, each with the size last requested for it, and these are exactly
    the blocks the backing allocator holds. *)
Theorem ledger_tracks_live_pointers (B : Backing) (cocos : bool)
    (ops : list Op) (live live' : gmap Z Z) (s s' : State) :
  let cfg := {| CC_MEMORY_TRACKER := true; COCOS_MEMORY_TRACKER := cocos |} in
  BackingOk B →
  forallb (λ op, negb (is_aligned_op op)) ops = true →
  ledger_agrees s live →
  run cfg ops live s = Ok live' s' →
  rec_size <$> ledger s' = live' ∧ dom (heap s') = dom live'.
Proof.
  intros cfg HB Hops Hag Hrun.
  exact (run_ledger_agrees HB cocos ops live live' s s' Hops Hag Hrun).
Qed.

Lemma ledger_agrees_init : ledger_agrees init_state ∅.
Proof. split; [apply fmap_empty | by rewrite !dom_empty_L]. Qed.

Lemma ledger_tracks_live_pointers_witness :
  (BackingOk quantum_backing ∧
   forallb (λ op, negb (is_aligned_op op)) plain_ops = true ∧
   ledger_agrees init_state ∅ ∧
   run (B:=quantum_backing) tracked plain_ops ∅ init_state
   = Ok plain_seq_live plain_seq_state) ∧
  rec_size <$> ledger plain_seq_state = plain_seq_live
  ∧ dom (heap plain_seq_state) = dom plain_seq_live.
Proof.
  assert (H1 : forallb (λ op, negb (is_aligned_op op)) plain_ops = true)
    by reflexivity.
  assert (H2 : run (B:=quantum_backing) tracked plain_ops ∅ init_state
               = Ok plain_seq_live plain_seq_state) by (vm_compute; reflexivity).
  split; [auto using quantum_backing_ok, ledger_agrees_init|].
  exact (ledger_tracks_live_pointers quantum_backing false plain_ops ∅
           plain_seq_live init_state plain_seq_state
           quantum_backing_ok H1 ledger_agrees_init H2).
Defined.

Example plain_seq_live_value : map_to_list plain_seq_live = [(112, 0)].
Proof. vm_compute. reflexivity. Qed.

(** ** The build without tracking *)

Lemma ledger_quiet_ret {A} (a : A) : ledger_quiet (ret a).
Proof. intros s. reflexivity. Qed.

Lemma ledger_quiet_bind {A C} (m : M A) (k : A → M C) :
  ledger_quiet m → (∀ a, ledger_quiet (k a)) → ledger_quiet (bind m k).
Proof.
  intros Hm Hk s. unfold bind. specialize (Hm s).
  destruct (m s) as [a s1|f]; [|done].
  specialize (Hk a s1). destruct (k a s1); congruence.
Qed.

Section Untracked.
Context {B : Backing}.

Lemma ledger_quiet_je_alloc_at (al : option Z) (sz : Z) :
  ledger_quiet (je_alloc_at al sz).
Proof. intros s. unfold je_alloc_at. by destruct (je_place _ _ _) as [[p d]|]. Qed.

Lemma ledger_quiet_je_free (ptr : Z) : ledger_quiet (je_free ptr).
Proof.
  intros s. unfold je_free. case_decide; [done|]. by destruct (heap s !! ptr).
Qed.

Lemma ledger_quiet_je_realloc (ptr sz : Z) : ledger_quiet (je_realloc ptr sz).
Proof.
  intros s. unfold je_realloc. case_decide.
  - apply ledger_quiet_je_alloc_at.
  - destruct (heap s !! ptr); [|done]. by destruct (je_place _ _ _) as [[p d]|].
Qed.

Lemma ledger_quiet_exec (op : Op) : ledger_quiet (exec untracked op).
Proof.
  destruct op as [count|align count|ptr count|ptr]; cbn [exec].
  - unfold AllocBytes. cbn [CC_MEMORY_TRACKER untracked].
    apply ledger_quiet_bind; [apply ledger_quiet_je_alloc_at|].
    intros a. apply ledger_quiet_ret.
  - unfold AllocBytesAligned. cbn [COCOS_MEMORY_TRACKER untracked].
    apply ledger_quiet_bind; [apply ledger_quiet_je_alloc_at|].
    intros a. apply ledger_quiet_ret.
  - unfold ReallocBytes. cbn [CC_MEMORY_TRACKER untracked].
    apply ledger_quiet_je_realloc.
  - apply ledger_quiet_bind; [|intros a; apply ledger_quiet_ret].
    unfold DeallocBytes. cbn [CC_MEMORY_TRACKER untracked].
    case_decide; [apply ledger_quiet_ret | apply ledger_quiet_je_free].
Qed.

Lemma ledger_quiet_run (ops : list Op) (live : gmap Z Z) :
  ledger_quiet (run untracked ops live).
Proof.
  revert live. induction ops as [|op ops IH]; intros live; cbn [run].
  - apply ledger_quiet_ret.
  - apply ledger_quiet_bind; [apply ledger_quiet_exec | intros r; apply IH].
Qed.

End Untracked.

(** X4: in the build without [CC_MEMORY_TRACKER], no sequence of facade
    calls, on any backing allocator and from any state, ever changes the
    ledger or fails a canary assertion: the instrumentation is compiled out
    of all four entry points. *)
Theorem untracked_leaves_ledger_alone (B : Backing) (ops : list Op)
    (live : gmap Z Z) (s : State) :
  match run untracked ops live s with
  | Ok _ s' => ledger s' = ledger s
  | Crash f => f = WildAccess
  end.
Proof. apply ledger_quiet_run. Qed.

(** ** Refusals of the backing allocator with tracking enabled *)

(** X5: with tracking enabled, on every backing allocator and from every
    state, when the backing allocator refuses the padded request [AllocBytes]
    does not return: it stamps the tag through the null result, a wild
    write.  So does [ReallocBytes] for every pointer argument and every
    non-zero size. *)
Theorem tracked_refusal_is_wild_write (B : Backing) (cocos : bool) (s : State)
    (ptr count : Z) (file : string) (line : Z) (func : string) :
  let cfg := {| CC_MEMORY_TRACKER := true; COCOS_MEMORY_TRACKER := cocos |} in
  count ≠ 0 →
  je_place (heap s) None (to_size_t (count + 4)) = None →
  AllocBytes cfg count file line func s = Crash WildAccess
  ∧ ReallocBytes cfg ptr count file line func s = Crash WildAccess.
Proof.
  intros cfg Hc Hpl. split.
  - by apply AllocBytes_tracked_refused.
  - by apply ReallocBytes_tracked_refused.
Qed.

Lemma tracked_refusal_is_wild_write_witness :
  (HUGE ≠ 0 ∧
   je_place (Backing:=quantum_backing) (heap sample_state) None (to_size_t (HUGE + 4))
   = None) ∧
  AllocBytes (B:=quantum_backing) tracked HUGE "a.cpp" 1 "f" sample_state
  = Crash WildAccess
  ∧ ReallocBytes (B:=quantum_backing) tracked 16 HUGE "a.cpp" 1 "f" sample_state
    = Crash WildAccess.
Proof.
  assert (H1 : HUGE ≠ 0) by (vm_compute; discriminate).
  assert (H2 : je_place (Backing:=quantum_backing) (heap sample_state) None
                 (to_size_t (HUGE + 4)) = None) by (vm_compute; reflexivity).
  split; [auto|].
  exact (tracked_refusal_is_wild_write quantum_backing false sample_state 16 HUGE
           "a.cpp" 1 "f" H1 H2).
Defined.

(** ** The tag, byte for byte *)

Lemma Z_of_byte_range (b : byte) : 0 ≤ Z_of_byte b < 256.
Proof.
  unfold Z_of_byte. pose proof (Byte.to_N_bounded b). lia.
Qed.

Lemma Z_of_byte_inj (a b : byte) : Z_of_byte a = Z_of_byte b → a = b.
Proof.
  unfold Z_of_byte. intros H. apply N2Z.inj in H.
  pose proof (Byte.of_to_N a) as Ha. rewrite H, Byte.of_to_N in Ha. congruence.
Qed.

(** Two byte strings of one length that read back as the same unsigned
    number are the same string. *)
Lemma decode_le_inj (a b : list byte) :
  length a = length b → decode_le a = decode_le b → a = b.
Proof.
  revert b. induction a as [|x a IH]; intros [|y b] Hlen Hdec; try done.
  cbn [decode_le] in Hdec. cbn [length] in Hlen.
  pose proof (Z_of_byte_range x). pose proof (Z_of_byte_range y).
  assert (Z_of_byte x = Z_of_byte y ∧ decode_le a = decode_le b) as [Hx Hr] by lia.
  f_equal; [by apply Z_of_byte_inj | apply IH; [lia | done]].
Qed.

Lemma canary_ok_iff (d : list byte) :
  (4 ≤ length d)%nat →
  canary_ok d = true ↔ drop (length d - 4) d = [x19; x07; x17; x20].
Proof.
  intros Hlen. unfold canary_ok. rewrite bool_decide_eq_true.
  rewrite take_ge by (rewrite length_drop; lia).
  split.
  - intros Hdec. apply decode_le_inj; [rewrite length_drop; simpl; lia|].
    rewrite Hdec. reflexivity.
  - intros ->. reflexivity.
Qed.

(** X6: on a live block, [CheckOverflowFree] passes exactly when the last
    four bytes of the usable region are 19 07 17 20, the tag 0x20170719 least
    significant byte first; every other content of those four bytes is a
    fatal assertion.  The check changes nothing. *)
Theorem canary_check_exact (s : State) (ptr : Z) (d : list byte) :
  ptr ≠ NULL →
  heap s !! ptr = Some d →
  4 ≤ Z.of_nat (length d) →
  CheckOverflowFree ptr s =
    if decide (drop (length d - 4) d = [x19; x07; x17; x20])
    then Ok tt s else Crash AssertFailed.
Proof.
  intros Hp Hd Hlen. rewrite (CheckOverflowFree_live _ _ _ Hd Hp Hlen).
  pose proof (canary_ok_iff d ltac:(lia)) as Hiff.
  destruct (canary_ok d); case_decide; try done.
  - destruct Hiff as [Hiff _]. by specialize (Hiff eq_refl).
  - destruct Hiff as [_ Hiff]. by specialize (Hiff ltac:(done)).
Qed.

Lemma canary_check_exact_witness :
  (16 ≠ NULL ∧ heap sample_state !! 16 = Some sample_block ∧
   4 ≤ Z.of_nat (length sample_block)) ∧
  CheckOverflowFree 16 sample_state =
    if decide (drop (length sample_block - 4) sample_block = [x19; x07; x17; x20])
    then Ok tt sample_state else Crash AssertFailed.
Proof.
  assert (H1 : 16 ≠ NULL) by (unfold NULL; lia).
  assert (H2 : heap sample_state !! 16 = Some sample_block)
    by (vm_compute; reflexivity).
  assert (H3 : 4 ≤ Z.of_nat (length sample_block)) by (vm_compute; discriminate).
  split; [auto|].
  exact (canary_check_exact sample_state 16 sample_block H1 H2 H3).
Defined.

(** X7: stamping and checking compose.  On a live block of at least four
    bytes, [CheckOverflowAlloc] overwrites the last four bytes with
    19 07 17 20 and nothing else (neither the bytes before them, nor any
    other block, nor the ledger), and [CheckOverflowFree] then passes. *)
Theorem stamp_then_check (s : State) (ptr : Z) (d : list byte) :
  ptr ≠ NULL →
  heap s !! ptr = Some d →
  4 ≤ Z.of_nat (length d) →
  let d' := take (length d - 4) d ++ [x19; x07; x17; x20] in
  let s1 := set_heap (<[ptr := d']> (heap s)) s in
  CheckOverflowAlloc ptr s = Ok tt s1
  ∧ CheckOverflowFree ptr s1 = Ok tt s1.
Proof.
  intros Hp Hd Hlen d' s1.
  assert (Hd' : stamped d = d').
  { unfold stamped, splice, d'. f_equal.
    change (length tag_bytes) with 4%nat.
    replace (length d - 4 + 4)%nat with (length d) by lia.
    by rewrite drop_all, app_nil_r. }
  split.
  - rewrite (CheckOverflowAlloc_live _ _ _ Hd Hp Hlen). by rewrite Hd'.
  - rewrite (CheckOverflowFree_live ptr d'); [|apply lookup_insert_eq|done|].
    + by rewrite <- Hd', canary_ok_stamped by lia.
    + rewrite <- Hd', length_stamped by lia. lia.
Qed.

Lemma stamp_then_check_witness :
  let d' := take (length (replicate 112 xa5) - 4) (replicate 112 xa5)
            ++ [x19; x07; x17; x20] in
  let s1 := set_heap (<[16 := d']> (heap aligned_state)) aligned_state in
  (16 ≠ NULL ∧ heap aligned_state !! 16 = Some (replicate 112 xa5) ∧
   4 ≤ Z.of_nat (length (replicate 112 xa5))) ∧
  CheckOverflowAlloc 16 aligned_state = Ok tt s1
  ∧ CheckOverflowFree 16 s1 = Ok tt s1.
Proof.
  intros d' s1.
  assert (H1 : 16 ≠ NULL) by (unfold NULL; lia).
  assert (H2 : heap aligned_state !! 16 = Some (replicate 112 xa5))
    by (vm_compute; reflexivity).
  assert (H3 : 4 ≤ Z.of_nat (length (replicate 112 xa5)))
    by (vm_compute; discriminate).
  split; [auto|].
  exact (stamp_then_check aligned_state 16 (replicate 112 xa5) H1 H2 H3).
Defined.

(** ** Resizing: corruption, and what is left alone *)



Lemma smashed_state_block : heap smashed_state !! 16 = Some smashed_block.
Proof. vm_compute. reflexivity. Qed.


(** X9: with tracking enabled, a resize to a non-zero size that returns
    never returns null and never returns the old address: the block moves to
    an address that owned no block, the old address owns none afterwards, the
    ledger record moves with it (new size, new call site), and every other
    block and every other ledger record is left as it was. *)
Theorem ReallocBytes_frame (B : Backing) (cocos : bool) (s s' : State)
    (ptr N r : Z) (file : string) (line : Z) (func : string) :
  let cfg := {| CC_MEMORY_TRACKER := true; COCOS_MEMORY_TRACKER := cocos |} in
  BackingOk B →
  ptr ≠ NULL →
  N ≠ 0 →
  ReallocBytes cfg ptr N file line func s = Ok r s' →
  r ≠ NULL ∧ r ≠ ptr
  ∧ is_Some (heap s !! ptr) ∧ heap s !! r = None
  ∧ heap s' !! ptr = None ∧ is_Some (heap s' !! r)
  ∧ ledger s' !! ptr = None
  ∧ ledger s' !! r = Some {| rec_size := N; rec_file := file;
                             rec_line := line; rec_func := func |}
  ∧ ∀ q, q ≠ ptr → q ≠ r →
         heap s' !! q = heap s !! q ∧ ledger s' !! q = ledger s !! q.
Proof.
  intros cfg HB Hp HN Hrun.
  unfold ReallocBytes in Hrun. cbn [CC_MEMORY_TRACKER MEM_CHECKTAG_SIZE cfg] in Hrun.
  destruct (decide (ptr ≠ NULL)); [|contradiction].
  destruct (decide (N = 0)); [contradiction|].
  apply bind_inv in Hrun as (usable & s0 & Hu & H).
  assert (s0 = s ∧ is_Some (heap s !! ptr)) as [-> Hlive].
  { unfold je_malloc_usable_size in Hu.
    destruct (decide (ptr = NULL)); [contradiction|].
    destruct (heap s !! ptr); [|discriminate].
    injection Hu as <- <-. eauto. }
  apply bind_inv in H as (nptr & s1 & Hm & H).
  apply bind_inv in H as ([] & s2 & Hcp & H).
  apply bind_inv in H as ([] & s3 & Hca & H).
  apply bind_inv in H as ([] & s4 & Hra & H).
  apply bind_inv in H as ([] & s5 & Hcf & H).
  apply bind_inv in H as ([] & s6 & Hrf & H).
  apply bind_inv in H as ([] & s7 & Hf & H).
  injection H as <- <-.
  unfold je_malloc, je_alloc_at in Hm.
  destruct (je_place (heap s) None _) as [[q nd]|] eqn:Hpl.
  - injection Hm as <- <-.
    destruct (HB _ _ _ _ _ Hpl) as (Hq & Hfresh & _).
    apply memcpy_inv in Hcp as (d1 & _ & ->).
    apply CheckOverflowAlloc_inv in Hca as (d2 & _ & ->).
    injection Hra as <-.
    apply CheckOverflowFree_inv in Hcf as [-> _]. injection Hrf as <-.
    apply je_free_inv in Hf as ->; [|done].
    assert (Hne : q ≠ ptr).
    { intros ->. rewrite Hfresh in Hlive. by destruct Hlive. }
    cbn. repeat split; try done.
    + apply lookup_delete_eq.
    + rewrite lookup_delete_ne, lookup_insert_eq by done. eauto.
    + apply lookup_delete_eq.
    + rewrite lookup_delete_ne by done. apply lookup_insert_eq.
    + rewrite lookup_delete_ne by done. by rewrite !lookup_insert_ne.
    + rewrite lookup_delete_ne by done. by rewrite lookup_insert_ne.
  - injection Hm as <- <-.
    apply memcpy_inv in Hcp as (d1 & _ & ->).
    by rewrite CheckOverflowAlloc_null in Hca.
Qed.

Lemma ReallocBytes_frame_witness :
  (BackingOk quantum_backing ∧ 16 ≠ NULL ∧ 40 ≠ 0 ∧
   ReallocBytes (B:=quantum_backing) tracked 16 40 "main.cpp" 43 "main" sample_state
   = Ok 48 resized_state) ∧
  48 ≠ NULL ∧ 48 ≠ 16
  ∧ is_Some (heap sample_state !! 16) ∧ heap sample_state !! 48 = None
  ∧ heap resized_state !! 16 = None ∧ is_Some (heap resized_state !! 48)
  ∧ ledger resized_state !! 16 = None
  ∧ ledger resized_state !! 48 = Some {| rec_size := 40; rec_file := "main.cpp";
                                          rec_line := 43; rec_func := "main" |}
  ∧ ∀ q, q ≠ 16 → q ≠ 48 →
         heap resized_state !! q = heap sample_state !! q
         ∧ ledger resized_state !! q = ledger sample_state !! q.
Proof.
  assert (H1 : 16 ≠ NULL) by (unfold NULL; lia).
  assert (H2 : 40 ≠ 0) by lia.
  assert (H3 : ReallocBytes (B:=quantum_backing) tracked 16 40 "main.cpp" 43 "main"
                 sample_state = Ok 48 resized_state) by (vm_compute; reflexivity).
  split; [auto using quantum_backing_ok|].
  exact (ReallocBytes_frame quantum_backing false sample_state resized_state
           16 40 48 "main.cpp" 43 "main" quantum_backing_ok H1 H2 H3).
Defined.

(** ** Blocks from the aligned entry point *)

(** X10: with [CC_MEMORY_TRACKER] alone defined, a block obtained from
    [AllocBytesAligned] is the backing allocator's block untouched, with the
    ledger unchanged; releasing it through [DeallocBytes] ends in the fatal
    assertion unless the last four bytes the backing allocator left in the
    block happen to be the tag. *)
Theorem aligned_block_fails_release (B : Backing) (s : State)
    (align count p : Z) (d : list byte)
    (file : string) (line : Z) (func : string) :
  BackingOk B →
  0 ≤ count →
  count + 4 < SIZE_MOD →
  je_place (heap s) (Some align) (count + 4) = Some (p, d) →
  let s1 := set_heap (<[p := d]> (heap s)) s in
  AllocBytesAligned tracked align count file line func s = Ok p s1
  ∧ ledger s1 = ledger s
  ∧ DeallocBytes tracked p s1 =
      if decide (drop (length d - 4) d = [x19; x07; x17; x20])
      then Ok tt (released p s1) else Crash AssertFailed.
Proof.
  intros HB H0 Hmax Hpl s1.
  destruct (HB _ _ _ _ _ Hpl) as (Hp & Hfresh & Hlen).
  assert (Hsz : to_size_t (count + 4) = count + 4)
    by (unfold to_size_t; apply Z.mod_small; lia).
  split; [|split; [reflexivity|]].
  - rewrite AllocBytesAligned_tracked_raw, Hsz.
    unfold je_aligned_alloc, je_alloc_at. by rewrite Hpl.
  - unfold DeallocBytes. cbn [CC_MEMORY_TRACKER tracked].
    destruct (decide (p = NULL)); [contradiction|].
    rewrite (release_live p d s1); [|apply lookup_insert_eq|done|lia].
    pose proof (canary_ok_iff d ltac:(lia)) as Hiff.
    destruct (canary_ok d); case_decide; try done.
    + destruct Hiff as [Hiff _]. by specialize (Hiff eq_refl).
    + destruct Hiff as [_ Hiff]. by specialize (Hiff ltac:(done)).
Qed.

Lemma aligned_block_fails_release_witness :
  let s1 := set_heap (<[16 := replicate 112 xa5]> (heap init_state)) init_state in
  (BackingOk quantum_backing ∧ 0 ≤ 100 ∧ 100 + 4 < SIZE_MOD ∧
   je_place (Backing:=quantum_backing) (heap init_state) (Some 16) (100 + 4)
   = Some (16, replicate 112 xa5)) ∧
  AllocBytesAligned (B:=quantum_backing) tracked 16 100 "test.cpp" 1 "test" init_state
  = Ok 16 s1
  ∧ ledger s1 = ledger init_state
  ∧ DeallocBytes tracked 16 s1 =
      if decide (drop (length (replicate 112 xa5) - 4) (replicate 112 xa5)
                 = [x19; x07; x17; x20])
      then Ok tt (released 16 s1) else Crash AssertFailed.
Proof.
  intros s1.
  assert (H1 : 0 ≤ 100) by lia.
  assert (H2 : 100 + 4 < SIZE_MOD) by (vm_compute; reflexivity).
  assert (H3 : je_place (Backing:=quantum_backing) (heap init_state) (Some 16) (100 + 4)
               = Some (16, replicate 112 xa5)) by (vm_compute; reflexivity).
  split; [auto using quantum_backing_ok|].
  exact (aligned_block_fails_release quantum_backing init_state 16 100 16
           (replicate 112 xa5) "test.cpp" 1 "test" quantum_backing_ok H1 H2 H3).
Defined.

(** ** The statistics dump at and beyond its capacity *)

(** X11: for a capacity of at least 2 and a report of at least one
    fragment, [DumpStats] never leaves the buffer: the result holds the
    characters of the fragments, in order, cut after [bufsize - 1] of them,
    then one zero byte, then the caller's bytes as they were. *)
Theorem DumpStats_terminated_in_bounds (frags : list (list byte))
    (dest : list byte) (bufsize : Z) :
  2 ≤ bufsize < 2 ^ 31 →
  Z.of_nat (length dest) = bufsize →
  frags ≠ [] →
  Forall (λ msg, strlen msg < 2 ^ 31) frags →
  let text := report_text frags bufsize in
  ∃ out, DumpStats frags dest bufsize = Some out
    ∧ length out = length dest
    ∧ Z.of_nat (length text) < bufsize
    ∧ take (length text) out = text
    ∧ out !! length text = Some x00
    ∧ drop (length text + 1) out = drop (length text + 1) dest.
Proof.
  intros Hcap Hlen Hne Hall text.
  destruct (DumpStats_truncates frags dest bufsize Hcap Hlen Hne Hall)
    as (Hrun & Hfit & Hsame).
  fold text in Hrun, Hfit, Hsame.
  eexists. split; [exact Hrun|]. split; [exact Hsame|]. split; [lia|].
  split; [apply take_app_length|]. split.
  - rewrite lookup_app_r by lia. by rewrite Nat.sub_diag.
  - rewrite drop_app_ge by lia.
    replace (length text + 1 - length text)%nat with 1%nat by lia.
    reflexivity.
Qed.

Lemma DumpStats_terminated_in_bounds_witness :
  let frags := [[x41; x42]; [x43; x44; x45]] in
  let dest := [xff; xff; xff; xff] in
  let text := report_text frags 4 in
  (2 ≤ 4 < 2 ^ 31 ∧ Z.of_nat (length dest) = 4 ∧ frags ≠ [] ∧
   Forall (λ msg, strlen msg < 2 ^ 31) frags) ∧
  ∃ out, DumpStats frags dest 4 = Some out
    ∧ length out = length dest
    ∧ Z.of_nat (length text) < 4
    ∧ take (length text) out = text
    ∧ out !! length text = Some x00
    ∧ drop (length text + 1) out = drop (length text + 1) dest.
Proof.
  intros frags dest text.
  assert (H1 : 2 ≤ 4 < 2 ^ 31) by lia.
  assert (H2 : Z.of_nat (length dest) = 4) by reflexivity.
  assert (H3 : frags ≠ []) by discriminate.
  assert (H4 : Forall (λ msg, strlen msg < 2 ^ 31) frags)
    by (repeat constructor).
  split; [auto|].
  exact (DumpStats_terminated_in_bounds frags dest 4 H1 H2 H3 H4).
Defined.

(** X12: [DumpStats] writes nothing at all, not even a terminator, when the
    report has no fragment (whatever the capacity) and when the capacity is 1
    (whatever the fragments): the caller's buffer comes back unchanged. *)
Theorem DumpStats_writes_nothing (frags : list (list byte)) (dest : list byte)
    (bufsize : Z) :
  DumpStats [] dest bufsize = Some dest ∧ DumpStats frags dest 1 = Some dest.
Proof.
  split; [reflexivity|].
  unfold DumpStats. change (to_int (1 - 1)) with 0.
  induction frags as [|msg frags IH]; [reflexivity|].
  cbn [je_malloc_stats_print]. unfold JeStatsPrint at 1. cbn [jd_size].
  destruct (decide (0 = 0)); [exact IH | done].
Qed.

(** X13: with a capacity of 0 or less, the first fragment makes the
    callback clamp its length to the negative [bufsize - 1] and ask [memcpy]
    for that length as a [size_t]: an access far outside the caller's
    buffer. *)
Theorem DumpStats_nonpositive_capacity (msg : list byte) (frags : list (list byte))
    (dest : list byte) (bufsize : Z) :
  - 2 ^ 31 < bufsize ≤ 0 →
  strlen msg < 2 ^ 31 →
  Z.of_nat (length dest) < 2 ^ 63 →
  DumpStats (msg :: frags) dest bufsize = None.
Proof.
  intros Hcap Hmsg Hdest. unfold DumpStats.
  rewrite (to_int_id (bufsize - 1)) by lia.
  cbn [je_malloc_stats_print]. unfold JeStatsPrint. cbn [jd_size jd_buf].
  destruct (decide (bufsize - 1 = 0)); [lia|].
  pose proof (strlen_cstr msg) as Hlen.
  rewrite (to_int_id (strlen msg)) by lia.
  destruct (decide (strlen msg > bufsize - 1)); [|lia].
  assert (Hn : to_size_t (bufsize - 1) = 2 ^ 64 + (bufsize - 1)).
  { unfold to_size_t, SIZE_MOD.
    rewrite <- (Z.mod_add (bufsize - 1) 1 (2 ^ 64)) by lia.
    rewrite Z.mod_small; lia. }
  rewrite Hn. destruct (decide _) as [Hyes|_]; [lia | reflexivity].
Qed.

Lemma DumpStats_nonpositive_capacity_witness :
  (- 2 ^ 31 < 0 ≤ 0 ∧ strlen [x41] < 2 ^ 31 ∧
   Z.of_nat (length (@nil byte)) < 2 ^ 63) ∧
  DumpStats ([x41] :: []) [] 0 = None.
Proof.
  assert (H1 : - 2 ^ 31 < 0 ≤ 0) by lia.
  assert (H2 : strlen [x41] < 2 ^ 31) by reflexivity.
  assert (H3 : Z.of_nat (length (@nil byte)) < 2 ^ 63) by reflexivity.
  split; [auto|].
  exact (DumpStats_nonpositive_capacity [x41] [] [] 0 H1 H2 H3).
Defined.



(** ** The padded size at the top of [size_t] *)

(** X15: the padded size is computed in [size_t] and wraps.  With tracking
    enabled, for a count within 4 of 2^64 the backing allocator is asked for
    [count + 4 - 2^64] bytes (0 to 3); when it places that request in a block
    of at least four bytes, [AllocBytes] returns it, stamped, and records the
    full count in the ledger. *)
Theorem AllocBytes_padding_wraps (B : Backing) (cocos : bool) (s : State)
    (count p : Z) (d : list byte) (file : string) (line : Z) (func : string) :
  let cfg := {| CC_MEMORY_TRACKER := true; COCOS_MEMORY_TRACKER := cocos |} in
  BackingOk B →
  SIZE_MOD - 4 ≤ count < SIZE_MOD →
  je_place (heap s) None (count + 4 - SIZE_MOD) = Some (p, d) →
  4 ≤ Z.of_nat (length d) →
  AllocBytes cfg count file line func s
  = Ok p (allocated p d count file line func s)
  ∧ 0 ≤ count + 4 - SIZE_MOD < 4
  ∧ rec_size <$> ledger (allocated p d count file line func s) !! p = Some count.
Proof.
  intros cfg HB Hc Hpl Hlen.
  destruct (HB _ _ _ _ _ Hpl) as (Hp & _ & _).
  assert (Hsz : to_size_t (count + 4) = count + 4 - SIZE_MOD).
  { unfold to_size_t, SIZE_MOD in *.
    rewrite <- (Z.mod_add (count + 4) (-1) (2 ^ 64)) by lia.
    rewrite Z.mod_small; lia. }
  split; [|split; [lia|]].
  - apply AllocBytes_tracked_placed; [by rewrite Hsz | done | done].
  - unfold allocated. cbn. by rewrite lookup_insert_eq.
Qed.

Lemma AllocBytes_padding_wraps_witness :
  let count := 18446744073709551615 in
  let d := replicate 8 xa5 in
  (BackingOk quantum_backing ∧ SIZE_MOD - 4 ≤ count < SIZE_MOD ∧
   je_place (Backing:=quantum_backing) (heap init_state) None (count + 4 - SIZE_MOD)
   = Some (16, d) ∧
   4 ≤ Z.of_nat (length d)) ∧
  AllocBytes (B:=quantum_backing) tracked count "a.cpp" 1 "f" init_state
  = Ok 16 (allocated 16 d count "a.cpp" 1 "f" init_state)
  ∧ 0 ≤ count + 4 - SIZE_MOD < 4
  ∧ rec_size <$> ledger (allocated 16 d count "a.cpp" 1 "f" init_state) !! 16
    = Some count.
Proof.
  intros count d.
  assert (H1 : SIZE_MOD - 4 ≤ count < SIZE_MOD)
    by (split; vm_compute; [discriminate | reflexivity]).
  assert (H2 : je_place (Backing:=quantum_backing) (heap init_state) None
                 (count + 4 - SIZE_MOD) = Some (16, d)) by (vm_compute; reflexivity).
  assert (H3 : 4 ≤ Z.of_nat (length d)) by (vm_compute; discriminate).
  split; [auto using quantum_backing_ok|].
  exact (AllocBytes_padding_wraps quantum_backing false init_state count 16 d
           "a.cpp" 1 "f" quantum_backing_ok H1 H2 H3).
Defined.

(** * Properties of the frustum shape *)

Section FrustumFacts.
Import Frustum.
Context {N : Number} {G : Geometry}.

(** A well-formed frustum is six planes and eight vertices. *)
Lemma well_formed_inv (f : frustum) :
  well_formed f →
  ∃ p0 p1 p2 p3 p4 p5 v0 v1 v2 v3 v4 v5 v6 v7,
    f = {| _type := _type f;
           planes := [p0; p1; p2; p3; p4; p5];
           vertices := [v0; v1; v2; v3; v4; v5; v6; v7] |}.
Proof.
  destruct f as [t ps vs]. intros [Hp Hv]. cbn in *.
  destruct ps as [|p0 [|p1 [|p2 [|p3 [|p4 [|p5 [|? ?]]]]]]]; try discriminate.
  destruct vs as [|v0 [|v1 [|v2 [|v3 [|v4 [|v5 [|v6 [|v7 [|? ?]]]]]]]]];
    try discriminate.
  by exists p0, p1, p2, p3, p4, p5, v0, v1, v2, v3, v4, v5, v6, v7.
Qed.

Lemma new_frustum_well_formed : well_formed new_frustum.
Proof. split; reflexivity. Qed.

(** X16: [transform] on a well-formed accurate frustum moves each of the
    eight vertices by the matrix and rebuilds the planes 0 to 4 from the
    moved vertices; the slot of the far plane, [planes[5]], is never written
    and keeps the plane it held, while [planes[0]], written twice, ends as
    the plane through the moved vertices 7, 6 and 5.  The shape type is
    kept. *)
Theorem frustum_transform_accurate (f : frustum) (mat : Mat4) :
  well_formed f →
  _type f = SHAPE_FRUSTUM_ACCURATE →
  ∃ f' w0 w2 w3 w4 w5 w6 w7,
    transform f mat = Some f'
    ∧ well_formed f'
    ∧ _type f' = _type f
    ∧ vertices f' = (λ v, Vec3_transformMat4 v mat) <$> vertices f
    ∧ vertices f' !! 0%nat = Some w0
    ∧ vertices f' !! 2%nat = Some w2
    ∧ vertices f' !! 3%nat = Some w3
    ∧ vertices f' !! 4%nat = Some w4
    ∧ vertices f' !! 5%nat = Some w5
    ∧ vertices f' !! 6%nat = Some w6
    ∧ vertices f' !! 7%nat = Some w7
    ∧ planes f' =
        [ plane_fromPoints w7 w6 w5;
          plane_fromPoints w3 w7 w4;
          plane_fromPoints w6 w7 w3;
          plane_fromPoints w0 w4 w5;
          plane_fromPoints w2 w3 w0 ]
        ++ drop 5 (planes f).
Proof.
  intros Hwf Hacc.
  destruct (well_formed_inv f Hwf)
    as (p0 & p1 & p2 & p3 & p4 & p5 & v0 & v1 & v2 & v3 & v4 & v5 & v6 & v7 & Hf).
  rewrite Hf. unfold transform. cbn [_type].
  rewrite Hacc. destruct (decide _) as [Hne|_]; [done|].
  do 8 eexists. cbn. repeat split; reflexivity.
Qed.

(** X17: [createOrtho] on a well-formed frustum sets the eight vertices to
    the moved corners of the box (whatever they were) and the planes 0 to 4
    from them; [planes[5]] is never written and keeps the plane it held,
    while [planes[0]] ends as the plane through the vertices 7, 5 and 6.
    The shape type is kept. *)
Theorem frustum_createOrtho (out : frustum) (width height near far : num)
    (tr : Mat4) :
  well_formed out →
  let hw := div width (lit 2) in
  let hh := div height (lit 2) in
  let c0 := Vec3_transformMat4 (Vec3_set hw hh near) tr in
  let c1 := Vec3_transformMat4 (Vec3_set (neg hw) hh near) tr in
  let c2 := Vec3_transformMat4 (Vec3_set (neg hw) (neg hh) near) tr in
  let c3 := Vec3_transformMat4 (Vec3_set hw (neg hh) near) tr in
  let c4 := Vec3_transformMat4 (Vec3_set hw hh far) tr in
  let c5 := Vec3_transformMat4 (Vec3_set (neg hw) hh far) tr in
  let c6 := Vec3_transformMat4 (Vec3_set (neg hw) (neg hh) far) tr in
  let c7 := Vec3_transformMat4 (Vec3_set hw (neg hh) far) tr in
  createOrtho out width height near far tr =
    Some {| _type := _type out;
            planes := [ plane_fromPoints c7 c5 c6;
                        plane_fromPoints c3 c4 c7;
                        plane_fromPoints c6 c3 c7;
                        plane_fromPoints c0 c5 c4;
                        plane_fromPoints c2 c0 c3 ] ++ drop 5 (planes out);
            vertices := [c0; c1; c2; c3; c4; c5; c6; c7] |}.
Proof.
  intros Hwf.
  destruct (well_formed_inv out Hwf)
    as (p0 & p1 & p2 & p3 & p4 & p5 & v0 & v1 & v2 & v3 & v4 & v5 & v6 & v7 & Hf).
  rewrite Hf. reflexivity.
Qed.

(** X18: copying is exact.  [clone] of a well-formed frustum is a frustum
    equal to it, shape type included, and [copy] makes any well-formed
    destination equal to the source. *)
Theorem frustum_copy_exact (out f : frustum) :
  well_formed out →
  well_formed f →
  copy out f = Some f ∧ clone f = Some f.
Proof.
  intros Hout Hwf.
  destruct (well_formed_inv f Hwf)
    as (p0 & p1 & p2 & p3 & p4 & p5 & v0 & v1 & v2 & v3 & v4 & v5 & v6 & v7 & Hf).
  destruct (well_formed_inv out Hout)
    as (q0 & q1 & q2 & q3 & q4 & q5 & u0 & u1 & u2 & u3 & u4 & u5 & u6 & u7 & Ho).
  rewrite Hf, Ho. split; reflexivity.
Qed.

(** X19: [update] reads nothing of the planes it is given, and of the
    frustum only the shape type (and, for a frustum that is not accurate, the
    vertices, which it keeps): two well-formed frustums that agree on these
    are updated to the same frustum, and the update does not fail. *)
Theorem frustum_update_overwrites (f1 f2 : frustum) (m inv : Mat4) :
  well_formed f1 →
  well_formed f2 →
  _type f1 = _type f2 →
  _type f1 = SHAPE_FRUSTUM_ACCURATE ∨ vertices f1 = vertices f2 →
  ∃ f', update f1 m inv = Some f'
        ∧ update f2 m inv = Some f'
        ∧ well_formed f'
        ∧ _type f' = _type f1
        ∧ (_type f1 ≠ SHAPE_FRUSTUM_ACCURATE → vertices f' = vertices f1)
        ∧ (_type f1 = SHAPE_FRUSTUM_ACCURATE →
           vertices f' = (λ v, Vec3_transformMat4 v inv) <$> _v).
Proof.
  intros Hwf1 Hwf2 Ht Hv.
  destruct (well_formed_inv f1 Hwf1)
    as (p0 & p1 & p2 & p3 & p4 & p5 & v0 & v1 & v2 & v3 & v4 & v5 & v6 & v7 & Hf).
  destruct (well_formed_inv f2 Hwf2)
    as (q0 & q1 & q2 & q3 & q4 & q5 & u0 & u1 & u2 & u3 & u4 & u5 & u6 & u7 & Ho).
  rewrite Hf, Ho in Hv |- *. rewrite <- Ht. cbn [_type vertices] in *.
  unfold update. cbn -[decide].
  destruct (decide (_type f1 ≠ SHAPE_FRUSTUM_ACCURATE)) as [Hne|He].
  - destruct Hv as [?|Hv]; [done|]. injection Hv as <- <- <- <- <- <- <- <-.
    eexists. repeat split; try reflexivity. done.
  - eexists. cbn. repeat split; try reflexivity. done.
Qed.

(** X20: [createOrtho] throws (a property of a missing array element is
    accessed) exactly when the frustum has fewer than eight vertices or fewer
    than five planes: the sixth plane is not needed, since [planes[5]] is
    never touched. *)
Theorem frustum_createOrtho_fails (out : frustum) (width height near far : num)
    (tr : Mat4) :
  createOrtho out width height near far tr = None ↔
  (length (vertices out) < 8 ∨ length (planes out) < 5)%nat.
Proof.
  destruct out as [t ps vs].
  destruct vs as [|v0 [|v1 [|v2 [|v3 [|v4 [|v5 [|v6 [|v7 vs]]]]]]]];
    try (cbn; split; [intros _; left; lia | reflexivity]).
  destruct ps as [|p0 [|p1 [|p2 [|p3 [|p4 ps]]]]];
    try (cbn; split; [intros _; right; lia | reflexivity]).
  cbn. split; [discriminate | lia].
Qed.

End FrustumFacts.

Section FrustumWitnesses.
Import Frustum.

Lemma frustum_transform_accurate_witness :
  (well_formed sample_accurate ∧
   _type sample_accurate = @SHAPE_FRUSTUM_ACCURATE sample_number) ∧
  ∃ f' w0 w2 w3 w4 w5 w6 w7,
    @transform sample_number sample_geometry sample_accurate sample_mat = Some f'
    ∧ well_formed f'
    ∧ _type f' = _type sample_accurate
    ∧ vertices f'
      = (λ v, @Vec3_transformMat4 sample_number sample_geometry v sample_mat)
          <$> vertices sample_accurate
    ∧ vertices f' !! 0%nat = Some w0
    ∧ vertices f' !! 2%nat = Some w2
    ∧ vertices f' !! 3%nat = Some w3
    ∧ vertices f' !! 4%nat = Some w4
    ∧ vertices f' !! 5%nat = Some w5
    ∧ vertices f' !! 6%nat = Some w6
    ∧ vertices f' !! 7%nat = Some w7
    ∧ planes f' =
        [ @plane_fromPoints sample_number sample_geometry w7 w6 w5;
          @plane_fromPoints sample_number sample_geometry w3 w7 w4;
          @plane_fromPoints sample_number sample_geometry w6 w7 w3;
          @plane_fromPoints sample_number sample_geometry w0 w4 w5;
          @plane_fromPoints sample_number sample_geometry w2 w3 w0 ]
        ++ drop 5 (planes sample_accurate).
Proof.
  assert (H1 : well_formed sample_accurate) by (split; reflexivity).
  assert (H2 : _type sample_accurate = @SHAPE_FRUSTUM_ACCURATE sample_number)
    by reflexivity.
  split; [auto|].
  exact (@frustum_transform_accurate sample_number sample_geometry
           sample_accurate sample_mat H1 H2).
Defined.

Lemma frustum_createOrtho_witness :
  let hw := Z.div 8 2 in
  let hh := Z.div 6 2 in
  let c vx vy vz := @Vec3_transformMat4 sample_number sample_geometry
                      (@Vec3_set sample_number vx vy vz) sample_mat in
  well_formed sample_plain ∧
  @createOrtho sample_number sample_geometry sample_plain 8 6 1 10 sample_mat =
    Some {| _type := _type sample_plain;
            planes := [ @plane_fromPoints sample_number sample_geometry
                          (c hw (- hh) 10) (c (- hw) hh 10) (c (- hw) (- hh) 10);
                        @plane_fromPoints sample_number sample_geometry
                          (c hw (- hh) 1) (c hw hh 10) (c hw (- hh) 10);
                        @plane_fromPoints sample_number sample_geometry
                          (c (- hw) (- hh) 10) (c hw (- hh) 1) (c hw (- hh) 10);
                        @plane_fromPoints sample_number sample_geometry
                          (c hw hh 1) (c (- hw) hh 10) (c hw hh 10);
                        @plane_fromPoints sample_number sample_geometry
                          (c (- hw) (- hh) 1) (c hw hh 1) (c hw (- hh) 1) ]
                      ++ drop 5 (planes sample_plain);
            vertices := [ c hw hh 1; c (- hw) hh 1; c (- hw) (- hh) 1;
                          c hw (- hh) 1; c hw hh 10; c (- hw) hh 10;
                          c (- hw) (- hh) 10; c hw (- hh) 10 ] |}.
Proof.
  intros hw hh c.
  assert (H1 : well_formed sample_plain) by (split; reflexivity).
  split; [exact H1|].
  exact (@frustum_createOrtho sample_number sample_geometry sample_plain
           8 6 1 10 sample_mat H1).
Defined.

Lemma frustum_copy_exact_witness :
  (well_formed sample_plain ∧ well_formed sample_accurate) ∧
  copy sample_plain sample_accurate = Some sample_accurate
  ∧ clone sample_accurate = Some sample_accurate.
Proof.
  assert (H1 : well_formed sample_plain) by (split; reflexivity).
  assert (H2 : well_formed sample_accurate) by (split; reflexivity).
  split; [auto|].
  exact (@frustum_copy_exact sample_number sample_plain sample_accurate H1 H2).
Defined.

Lemma frustum_update_overwrites_witness :
  (well_formed sample_plain ∧ well_formed sample_stale ∧
   _type sample_plain = _type sample_stale ∧
   (_type sample_plain = @SHAPE_FRUSTUM_ACCURATE sample_number
    ∨ vertices sample_plain = vertices sample_stale)) ∧
  ∃ f', @update sample_number sample_geometry sample_plain sample_mat sample_mat
        = Some f'
        ∧ @update sample_number sample_geometry sample_stale sample_mat sample_mat
          = Some f'
        ∧ well_formed f'
        ∧ _type f' = _type sample_plain
        ∧ (_type sample_plain ≠ @SHAPE_FRUSTUM_ACCURATE sample_number →
           vertices f' = vertices sample_plain)
        ∧ (_type sample_plain = @SHAPE_FRUSTUM_ACCURATE sample_number →
           vertices f'
           = (λ v, @Vec3_transformMat4 sample_number sample_geometry v sample_mat)
               <$> @_v sample_number).
Proof.
  assert (H1 : well_formed sample_plain) by (split; reflexivity).
  assert (H2 : well_formed sample_stale) by (split; reflexivity).
  assert (H3 : _type sample_plain = _type sample_stale) by reflexivity.
  assert (H4 : _type sample_plain = @SHAPE_FRUSTUM_ACCURATE sample_number
               ∨ vertices sample_plain = vertices sample_stale)
    by (right; reflexivity).
  split; [auto|].
  exact (@frustum_update_overwrites sample_number sample_geometry
           sample_plain sample_stale sample_mat sample_mat H1 H2 H3 H4).
Defined.

(** The cut-short frustum makes [createOrtho] throw. *)
Example frustum_createOrtho_short :
  @createOrtho sample_number sample_geometry sample_short 8 6 1 10 sample_mat = None.
Proof. reflexivity. Qed.

End FrustumWitnesses.
